(** * xtwitt: the multi-account posting orchestrator

    A shallow embedding of [src/services/twitter_service_new.js]
    (posting state machine, dispatch loop, history store, failure queue,
    retry sweep, lazy account loading), of [readAccountsFromFile] from the
    configuration module and of the template scoring of
    [src/services/aiService.js], followed by the properties of the
    specification that were checked against them.

    Conventions of the embedding.
    - A JavaScript string is a [string]; one [ascii] stands for one code
      unit, so [String.length] is the source's [.length].
    - Integers ([retryCount], account numbers, milliseconds) are [Z].
    - [async] code runs sequentially: an [await] is a plain sequencing
      step, a rejected promise is a thrown value.  Computations are
      written in explicit state-passing style over [World] and return an
      [Outcome]: either a returned value or a thrown JavaScript value.
    - The file system is part of [World]: each JSON file is [None] when it
      is missing or cannot be parsed (the source treats both alike) and
      [Some l] when it parses to the array [l]; content that parses to
      something else than an array is left out.  Writes succeed.
    - [console] output is not modelled. *)

From Stdlib Require Import List String Ascii ZArith Arith Bool Lia QArith Lqa.
From Stdlib Require Import DecimalString.
From Equations Require Import Equations.
Import ListNotations.

Local Open Scope string_scope.
Local Open Scope Z_scope.

(** ** JavaScript string primitives *)

Module Js.

(** [s.includes(sub)] *)
Definition includes (s sub : string) : bool :=
  match String.index 0 sub s with
  | Some _ => true
  | None => false
  end.

(** [s.indexOf(sub)], read only where [includes] holds. *)
Definition indexOf (s sub : string) : nat :=
  match String.index 0 sub s with
  | Some i => i
  | None => 0%nat
  end.

(** [s.substring(0, n)] *)
Definition substring_to (n : nat) (s : string) : string :=
  String.substring 0 n s.

(** [s.substring(n)] *)
Definition substring_from (n : nat) (s : string) : string :=
  String.substring n (String.length s - n) s.

(** [s.startsWith(p)] *)
Definition startsWith (s p : string) : bool := String.prefix p s.

(** A string is truthy when it is not empty. *)
Definition truthy (s : string) : bool :=
  match s with
  | EmptyString => false
  | String _ _ => true
  end.

(** White space removed by [trim], within the code units below 256. *)
Definition is_space (c : ascii) : bool :=
  let n := nat_of_ascii c in
  ((9 <=? n) && (n <=? 13) || (n =? 32) || (n =? 160))%nat.

Fixpoint trimStart (s : string) : string :=
  match s with
  | EmptyString => EmptyString
  | String c rest => if is_space c then trimStart rest else s
  end.

Fixpoint trimEnd (s : string) : string :=
  match s with
  | EmptyString => EmptyString
  | String c rest =>
      match trimEnd rest with
      | EmptyString => if is_space c then EmptyString else String c EmptyString
      | kept => String c kept
      end
  end.

Definition trim (s : string) : string := trimEnd (trimStart s).

(** [s.split(sep)] for a one-character separator: never empty. *)
Fixpoint split (sep : ascii) (s : string) : list string :=
  match s with
  | EmptyString => [EmptyString]
  | String c rest =>
      if Ascii.eqb c sep then EmptyString :: split sep rest
      else match split sep rest with
           | [] => [String c EmptyString]
           | piece :: pieces => String c piece :: pieces
           end
  end.

(** [arr.slice(-n)]: the last [n] elements. *)
Definition slice_last {A} (n : nat) (l : list A) : list A :=
  skipn (List.length l - n) l.

(** [x || d] on an optional number: [undefined] and [0] are falsy. *)
Definition or_default (x : option Z) (d : Z) : Z :=
  match x with
  | Some v => if v =? 0 then d else v
  | None => d
  end.

(** Decimal rendering of a number, as string concatenation does it. *)
Definition string_of_Z (z : Z) : string :=
  NilZero.string_of_int (Z.to_int z).

End Js.

(** ** Data model *)

(** A value that was thrown, or a promise's rejection reason.  Only the
    two properties the source reads are kept; a missing [message] is the
    empty string, which [||] treats the same way. *)
Inductive JsThrown :=
| ThrownNullish
| ThrownError (code : option Z) (message : string).

Definition Error (message : string) : JsThrown := ThrownError None message.
Definition TypeError (message : string) : JsThrown := ThrownError None message.
Definition ReferenceError (message : string) : JsThrown := ThrownError None message.

Inductive Outcome (A : Type) :=
| Returned (a : A)
| Thrown (e : JsThrown).
Arguments Returned {A} a.
Arguments Thrown {A} e.

(** What [client.v2.tweet(text)] settles to: a response whose
    [data.id] may be missing, or a rejection. *)
Inductive TweetOutcome :=
| Resolves (id : option string)
| Rejects (e : JsThrown).

(** The transport of one handle: the outcome of a call may depend on how
    many calls the run has made before and on the text. *)
Definition Client := nat -> string -> TweetOutcome.

(** One line of credentials, numbered. *)
Record Account := {
  appKey : string;
  appSecret : string;
  accessToken : string;
  accessSecret : string;
  a_accountNumber : Z
}.

(** [{ client, accountNumber }]; [obj_id] is the object's identity, which
    [!==] compares. *)
Record ClientObj := {
  obj_id : nat;
  client : Client;
  c_accountNumber : Z
}.

Record TwitterConfig := {
  retryDelay : option Z;
  maxRetries : option Z
}.

Record Config := {
  simulationMode : bool;
  twitterConfig : option TwitterConfig
}.

(** The object [postTweetWithClient] resolves to. *)
Record Result := {
  success : bool;
  simulated : bool;
  response_id : option string;
  r_accountNumber : Z;
  tweetUrl : option string;
  error : option JsThrown
}.

(** One element of [accounts] in a history record. *)
Record AccountRecord := {
  h_accountNumber : Z;
  h_success : bool;
  h_simulated : bool;
  h_tweetId : option string;
  h_tweetUrl : option string;
  h_error : option string
}.

(** One entry of [tweet_history.json]; the timestamp is kept as the
    instant that the source renders with [toISOString]. *)
Record TweetRecord := {
  t_timestamp : Z;
  t_text : string;
  t_accounts : list AccountRecord
}.

(** One entry of [failed_tweets.json]. *)
Record FailedTweet := {
  f_timestamp : Z;
  f_text : string;
  f_accountNumber : Z
}.

Record Template := {
  tpl_id : Z;
  tpl_name : string;
  tpl_content : string;
  tpl_tags : list string
}.

(** ** The world the service runs in *)

Record World := {
  (** [process.env.SIMULATION_MODE === 'true'] *)
  env_simulation : bool;
  (** the clock: value of the k-th reading, and readings made so far *)
  date_now : nat -> Z;
  date_reads : nat;
  (** [Math.floor(delay * (0.8 + Math.random() * 0.4))] for the k-th draw *)
  random_scale : nat -> Z -> Z;
  random_draws : nat;
  (** the three files *)
  failed_tweets_json : option (list FailedTweet);
  tweet_history_json : option (list TweetRecord);
  accounts_txt : option string;
  (** [new TwitterApi(credentials)] and the next fresh object identity *)
  new_TwitterApi : Account -> Client;
  next_obj_id : nat;
  (** what was observed: transport calls, sleeps, delay computations *)
  tweet_calls : list (Z * string);
  sleeps : list Z;
  delay_calls : list (Z * list TweetRecord)
}.

Definition set_date_reads (n : nat) (w : World) : World :=
  {| env_simulation := env_simulation w; date_now := date_now w;
     date_reads := n;
     random_scale := random_scale w; random_draws := random_draws w;
     failed_tweets_json := failed_tweets_json w;
     tweet_history_json := tweet_history_json w;
     accounts_txt := accounts_txt w;
     new_TwitterApi := new_TwitterApi w; next_obj_id := next_obj_id w;
     tweet_calls := tweet_calls w; sleeps := sleeps w;
     delay_calls := delay_calls w |}.

Definition set_random_draws (n : nat) (w : World) : World :=
  {| env_simulation := env_simulation w; date_now := date_now w;
     date_reads := date_reads w;
     random_scale := random_scale w; random_draws := n;
     failed_tweets_json := failed_tweets_json w;
     tweet_history_json := tweet_history_json w;
     accounts_txt := accounts_txt w;
     new_TwitterApi := new_TwitterApi w; next_obj_id := next_obj_id w;
     tweet_calls := tweet_calls w; sleeps := sleeps w;
     delay_calls := delay_calls w |}.

Definition set_failed_tweets_json (f : option (list FailedTweet)) (w : World) : World :=
  {| env_simulation := env_simulation w; date_now := date_now w;
     date_reads := date_reads w;
     random_scale := random_scale w; random_draws := random_draws w;
     failed_tweets_json := f;
     tweet_history_json := tweet_history_json w;
     accounts_txt := accounts_txt w;
     new_TwitterApi := new_TwitterApi w; next_obj_id := next_obj_id w;
     tweet_calls := tweet_calls w; sleeps := sleeps w;
     delay_calls := delay_calls w |}.

Definition set_tweet_history_json (h : option (list TweetRecord)) (w : World) : World :=
  {| env_simulation := env_simulation w; date_now := date_now w;
     date_reads := date_reads w;
     random_scale := random_scale w; random_draws := random_draws w;
     failed_tweets_json := failed_tweets_json w;
     tweet_history_json := h;
     accounts_txt := accounts_txt w;
     new_TwitterApi := new_TwitterApi w; next_obj_id := next_obj_id w;
     tweet_calls := tweet_calls w; sleeps := sleeps w;
     delay_calls := delay_calls w |}.

Definition set_accounts_txt (c : option string) (w : World) : World :=
  {| env_simulation := env_simulation w; date_now := date_now w;
     date_reads := date_reads w;
     random_scale := random_scale w; random_draws := random_draws w;
     failed_tweets_json := failed_tweets_json w;
     tweet_history_json := tweet_history_json w;
     accounts_txt := c;
     new_TwitterApi := new_TwitterApi w; next_obj_id := next_obj_id w;
     tweet_calls := tweet_calls w; sleeps := sleeps w;
     delay_calls := delay_calls w |}.

Definition set_next_obj_id (n : nat) (w : World) : World :=
  {| env_simulation := env_simulation w; date_now := date_now w;
     date_reads := date_reads w;
     random_scale := random_scale w; random_draws := random_draws w;
     failed_tweets_json := failed_tweets_json w;
     tweet_history_json := tweet_history_json w;
     accounts_txt := accounts_txt w;
     new_TwitterApi := new_TwitterApi w; next_obj_id := n;
     tweet_calls := tweet_calls w; sleeps := sleeps w;
     delay_calls := delay_calls w |}.

Definition set_tweet_calls (c : list (Z * string)) (w : World) : World :=
  {| env_simulation := env_simulation w; date_now := date_now w;
     date_reads := date_reads w;
     random_scale := random_scale w; random_draws := random_draws w;
     failed_tweets_json := failed_tweets_json w;
     tweet_history_json := tweet_history_json w;
     accounts_txt := accounts_txt w;
     new_TwitterApi := new_TwitterApi w; next_obj_id := next_obj_id w;
     tweet_calls := c; sleeps := sleeps w;
     delay_calls := delay_calls w |}.

Definition set_sleeps (s : list Z) (w : World) : World :=
  {| env_simulation := env_simulation w; date_now := date_now w;
     date_reads := date_reads w;
     random_scale := random_scale w; random_draws := random_draws w;
     failed_tweets_json := failed_tweets_json w;
     tweet_history_json := tweet_history_json w;
     accounts_txt := accounts_txt w;
     new_TwitterApi := new_TwitterApi w; next_obj_id := next_obj_id w;
     tweet_calls := tweet_calls w; sleeps := s;
     delay_calls := delay_calls w |}.

Definition set_delay_calls (d : list (Z * list TweetRecord)) (w : World) : World :=
  {| env_simulation := env_simulation w; date_now := date_now w;
     date_reads := date_reads w;
     random_scale := random_scale w; random_draws := random_draws w;
     failed_tweets_json := failed_tweets_json w;
     tweet_history_json := tweet_history_json w;
     accounts_txt := accounts_txt w;
     new_TwitterApi := new_TwitterApi w; next_obj_id := next_obj_id w;
     tweet_calls := tweet_calls w; sleeps := sleeps w;
     delay_calls := d |}.

(** [Date.now()] / [new Date()]: one reading of the clock. *)
Definition Date_now (w : World) : Z * World :=
  (date_now w (date_reads w), set_date_reads (S (date_reads w)) w).

(** [await sleep(ms)] *)
Definition sleep (ms : Z) (w : World) : World :=
  set_sleeps (sleeps w ++ [ms])%list w.

(** ** Error messages: [parseTwitterError]

    The function builds a line for the console out of an explanation and
    a suggestion; the pair is returned here.  Reading [error.message] of
    [null] or [undefined] throws a [TypeError]. *)

Definition explain_code (code : Z) (dflt : string * string) : string * string :=
  if code =? 32 then
    ("Authentication error.",
     "Check your Twitter API credentials in accounts.txt.")
  else if code =? 88 then
    ("Rate limit exceeded.",
     "Wait a while before trying again or increase the delay between requests.")
  else if code =? 89 then
    ("Token invalid or expired.",
     "Regenerate your access token and update accounts.txt.")
  else if code =? 99 then
    ("Invalid or expired token.",
     "Regenerate your access token and update accounts.txt.")
  else if code =? 161 then
    ("You don't have permission to follow.",
     "Check if your app has the proper permissions.")
  else if code =? 179 then
    ("Not authorized to view this tweet or account.",
     "The account may be private or suspended.")
  else if code =? 187 then
    ("Duplicate tweet content.",
     "Modify the tweet text to make it unique.")
  else if code =? 215 then
    ("Bad authentication data.",
     "Verify your API credentials in accounts.txt.")
  else if code =? 226 then
    ("Tweet content appears automated.",
     "Make your tweet content more unique.")
  else if code =? 261 then
    ("Application is not permitted to perform this action.",
     "Verify your app has the necessary permissions.")
  else if code =? 326 then
    ("Account temporarily locked.",
     "Check your Twitter account for any security notices.")
  else if code =? 401 then
    ("Unauthorized access.",
     "Check your API credentials and account permissions.")
  else if code =? 403 then
    ("Forbidden - Access denied.",
     "Your app may lack write permissions. Check Twitter Developer Portal.")
  else if code =? 404 then
    ("Resource not found.",
     "Check if the tweet or user exists.")
  else if code =? 429 then
    ("Rate limit exceeded.",
     "You've hit the Twitter API rate limit. Wait a while before trying again.")
  else dflt.

Definition parseTwitterError (error : JsThrown) (accountNumber : Z)
  : Outcome (string * string) :=
  match error with
  | ThrownNullish =>
      Thrown (TypeError "Cannot read properties of undefined (reading 'message')")
  | ThrownError code errorMessage =>
      let dflt :=
        ("Twitter account #" ++ Js.string_of_Z accountNumber ++ " encountered an error.",
         "Please try again later.") in
      let by_code :=
        match code with
        | Some c => explain_code c dflt
        | None => dflt
        end in
      Returned
        (if Js.includes errorMessage "authentication" then
           ("Authentication problem with Twitter.",
            "Check your Twitter API credentials and permissions.")
         else if Js.includes errorMessage "permission" then
           ("Your app lacks the necessary permissions.",
            "In Twitter Developer Portal, check app permissions. Should be set to 'Read and Write'.")
         else if Js.includes errorMessage "rate limit" then
           ("Rate limit reached.",
            "You've hit Twitter's API limits. Wait before trying again or reduce frequency.")
         else by_code)
  end.

(** [twitterError.code === n] *)
Definition code_is (e : JsThrown) (n : Z) : bool :=
  match e with
  | ThrownError (Some c) _ => c =? n
  | _ => false
  end.

(** ** Failure queue: [saveFailedTweet] *)

Definition saveFailedTweet (tweetText : string) (accountNumber : Z) (w : World) : World :=
  let failedTweets :=
    match failed_tweets_json w with
    | Some parsed => parsed
    | None => []
    end in
  let '(now, w1) := Date_now w in
  set_failed_tweets_json
    (Some (failedTweets ++
           [{| f_timestamp := now; f_text := tweetText;
               f_accountNumber := accountNumber |}])%list)
    w1.

(** ** Posting state machine: [postTweetWithClient] *)

Definition two_digits (n : Z) : string :=
  let digit d := ascii_of_nat (48 + Z.to_nat d) in
  String (digit (n / 10 mod 10)) (String (digit (n mod 10)) EmptyString).

(** [new Date(t).toISOString().slice(11, 19)]: the time of day HH:MM:SS *)
Definition hms (t : Z) : string :=
  let s := (t / 1000) mod 86400 in
  two_digits (s / 3600) ++ ":" ++ two_digits (s mod 3600 / 60) ++ ":"
    ++ two_digits (s mod 60).

(** The text retried after a duplicate-content error. *)
Definition uniqueTweet (tweetText timestamp : string) : string :=
  if Js.includes tweetText "@giverep" then
    let tagIndex := Js.indexOf tweetText "@giverep" in
    Js.substring_to tagIndex tweetText ++ "[" ++ timestamp ++ "] "
      ++ Js.substring_from tagIndex tweetText
  else
    tweetText ++ " [" ++ timestamp ++ "]".

Definition is_simulationMode (config : Config) (w : World) : bool :=
  env_simulation w || simulationMode config.

Definition simulate (tweetText : string) (obj : ClientObj) (w : World) : Result * World :=
  let '(now, w1) := Date_now w in
  ({| success := true; simulated := true;
      response_id := Some ("simulated-tweet-" ++ Js.string_of_Z now);
      r_accountNumber := c_accountNumber obj;
      tweetUrl := None; error := None |}, w1).

(** The inner [try] block: validation, the transport call, the check of
    the response. *)
Definition try_tweet (tweetText : string) (obj : ClientObj) (w : World)
  : Outcome Result * World :=
  if negb (Js.truthy tweetText) || (String.length tweetText =? 0)%nat then
    (Thrown (Error "Tweet text is empty"), w)
  else if (280 <? String.length tweetText)%nat then
    (Thrown (Error "Tweet text exceeds maximum length of 280 characters"), w)
  else
    let w1 := set_tweet_calls (tweet_calls w ++ [(c_accountNumber obj, tweetText)])%list w in
    match client obj (List.length (tweet_calls w)) tweetText with
    | Rejects e => (Thrown e, w1)
    | Resolves None => (Thrown (Error "Invalid response from Twitter API"), w1)
    | Resolves (Some id) =>
        if Js.truthy id then
          (Returned {| success := true; simulated := false;
                       response_id := Some id;
                       r_accountNumber := c_accountNumber obj;
                       tweetUrl := Some ("https://twitter.com/i/status/" ++ id);
                       error := None |}, w1)
        else (Thrown (Error "Invalid response from Twitter API"), w1)
    end.

(** [(config.twitterConfig?.retryDelay || 300) * 1000]: the wait of the
    rate-limit branch, in milliseconds. *)
Definition waitTime (config : Config) : Z :=
  Js.or_default
    (match twitterConfig config with
     | Some tc => retryDelay tc
     | None => None
     end) 300 * 1000.

(** The end of the inner [catch]: queue the text, resolve to a failure. *)
Definition record_failure (tweetText : string) (obj : ClientObj) (twitterError : JsThrown)
  (w : World) : Outcome Result * World :=
  (Returned {| success := false; simulated := false; response_id := None;
               r_accountNumber := c_accountNumber obj;
               tweetUrl := None; error := Some twitterError |},
   saveFailedTweet tweetText (c_accountNumber obj) w).

(** The outer [catch (error)]: its first statement reads [accountNumber],
    which is declared with [const] inside the [try] block and is not in
    scope in the handler, so the handler itself throws. *)
Definition outer_catch (error : JsThrown) (w : World) : Outcome Result * World :=
  (Thrown (ReferenceError "accountNumber is not defined"), w).

(** The function itself.  The recursion is on [retryCount], which each
    retry lowers by one while it is positive.  The source tests
    [code === 429 && retryCount > 0], then [code === 187 && retryCount > 0];
    a code is not both, so a rate limit without budget goes to the
    failure, as here.  A recursive call is returned without [await]: its
    rejection is not caught by the [catch] blocks of the caller. *)
Equations? postTweetWithClient (tweetText : string) (obj : ClientObj) (config : Config)
  (retryCount : Z) (w : World) : Outcome Result * World
  by wf (Z.to_nat retryCount) lt :=
postTweetWithClient tweetText obj config retryCount w :=
  if is_simulationMode config w then
    let '(r, w1) := simulate tweetText obj w in (Returned r, w1)
  else
    match try_tweet tweetText obj w with
    | (Returned r, w1) => (Returned r, w1)
    | (Thrown twitterError, w1) =>
        match parseTwitterError twitterError (c_accountNumber obj) with
        | Thrown e => outer_catch e w1
        | Returned detailedError =>
            if code_is twitterError 429 then
              match Z_gt_dec retryCount 0 with
              | left _ =>
                  let w2 := sleep (waitTime config) w1 in
                  postTweetWithClient tweetText obj config (retryCount - 1) w2
              | right _ => record_failure tweetText obj twitterError w1
              end
            else if code_is twitterError 187 then
              match Z_gt_dec retryCount 0 with
              | left _ =>
                  let '(now, w2) := Date_now w1 in
                  let timestamp := hms now in
                  let w3 := sleep 2000 w2 in
                  postTweetWithClient (uniqueTweet tweetText timestamp) obj config
                    (retryCount - 1) w3
              | right _ => record_failure tweetText obj twitterError w1
              end
            else record_failure tweetText obj twitterError w1
        end
    end.
Proof.
  all: lia.
Qed.

(** ** History store: [getTweetHistory], [saveTweetHistory] *)

Definition getTweetHistory (w : World) : list TweetRecord :=
  match tweet_history_json w with
  | Some parsed => parsed
  | None => []
  end.

(** The callback of [results.map] in [saveTweetHistory]. *)
Definition account_record (result : Result) (w : World) : AccountRecord * World :=
  let '(tweetId, w1) :=
    if success result || simulated result then
      match response_id result with
      | Some (String c rest) => (Some (String c rest), w)
      | _ =>
          if simulated result then
            let '(now, w1) := Date_now w in
            (Some ("simulated-" ++ Js.string_of_Z now), w1)
          else (Some "unknown", w)
      end
    else (None, w) in
  let tweetUrl :=
    match tweetId with
    | Some id =>
        if Js.truthy id && negb (String.eqb id "unknown")
           && negb (Js.includes id "simulated")
        then Some ("https://twitter.com/i/status/" ++ id)
        else None
    | None => None
    end in
  ({| h_accountNumber := r_accountNumber result;
      h_success := success result;
      h_simulated := simulated result;
      h_tweetId := tweetId;
      h_tweetUrl := tweetUrl;
      h_error :=
        if success result then None
        else match error result with
             | Some (ThrownError _ (String c rest)) => Some (String c rest)
             | _ => Some "Unknown error"
             end |}, w1).

Fixpoint account_records (results : list Result) (w : World)
  : list AccountRecord * World :=
  match results with
  | [] => ([], w)
  | result :: rest =>
      let '(a, w1) := account_record result w in
      let '(others, w2) := account_records rest w1 in
      (a :: others, w2)
  end.

Definition saveTweetHistory (tweetText : string) (results : list Result) (w : World)
  : list TweetRecord * World :=
  let history := getTweetHistory w in
  let '(now, w1) := Date_now w in
  let '(accounts, w2) := account_records results w1 in
  let tweetRecord :=
    {| t_timestamp := now; t_text := tweetText; t_accounts := accounts |} in
  let history := (history ++ [tweetRecord])%list in
  let history :=
    if (100 <? List.length history)%nat
    then skipn (List.length history - 100) history
    else history in
  (history, set_tweet_history_json (Some history) w2).

(** ** Adaptive delay: [calculateSmartDelay]

    [failRate] is a quotient of two counts of at most 20, compared with
    0.5 and 0.2; it is kept as an exact rational.  The last step,
    [Math.floor(delay * randomFactor)], is the world's [random_scale]. *)

Definition has_account (accountNumber : Z) (tweet : TweetRecord) : bool :=
  existsb (fun a => h_accountNumber a =? accountNumber) (t_accounts tweet).

Definition count_account (accountNumber : Z) (counts : nat * nat) (tweet : TweetRecord)
  : nat * nat :=
  let '(failCount, totalCount) := counts in
  match find (fun a => h_accountNumber a =? accountNumber) (t_accounts tweet) with
  | Some accountResult =>
      (if h_success accountResult then failCount else S failCount, S totalCount)
  | None => (failCount, totalCount)
  end.

Definition base_delay (accountNumber : Z) (history : list TweetRecord) : Z :=
  match history with
  | [] => 30000
  | _ :: _ =>
      let recentTweets := Js.slice_last 20 history in
      let accountTweets := filter (has_account accountNumber) recentTweets in
      match accountTweets with
      | [] => 30000
      | _ :: _ =>
          let '(failCount, totalCount) :=
            fold_left (count_account accountNumber) accountTweets (0%nat, 0%nat) in
          let failRate := Qmake (Z.of_nat failCount) (Pos.of_nat totalCount) in
          if negb (Qle_bool failRate (1 # 2)) then 60000
          else if negb (Qle_bool failRate (2 # 10)) then 45000
          else 30000
      end
  end.

Definition calculateSmartDelay (accountNumber : Z) (history : list TweetRecord)
  (w : World) : Z * World :=
  let k := random_draws w in
  let w1 := set_random_draws (S k) w in
  let w2 := set_delay_calls (delay_calls w1 ++ [(accountNumber, history)])%list w1 in
  (random_scale w k (base_delay accountNumber history), w2).

(** ** Dispatch loop: [postTweetToAllAccounts] *)

(** [clientObj !== twitterClients[twitterClients.length - 1]] *)
Definition not_final (final : option ClientObj) (clientObj : ClientObj) : bool :=
  negb match final with
       | Some f => Nat.eqb (obj_id clientObj) (obj_id f)
       | None => false
       end.

(** The body of [for (const clientObj of twitterClients)]; [final] is
    [twitterClients[twitterClients.length - 1]]. *)
Fixpoint dispatch_loop (tweetText : string) (remaining : list ClientObj)
  (final : option ClientObj) (config : Config) (results : list Result) (w : World)
  : Outcome (list Result) * World :=
  match remaining with
  | [] => (Returned results, w)
  | clientObj :: rest =>
      let budget :=
        Js.or_default
          (match twitterConfig config with
           | Some tc => maxRetries tc
           | None => None
           end) 1 in
      match postTweetWithClient tweetText clientObj config budget w with
      | (Thrown e, w1) => (Thrown e, w1)
      | (Returned result, w1) =>
          let results := (results ++ [result])%list in
          let w3 :=
            if not_final final clientObj then
              let '(delayMs, w2) :=
                calculateSmartDelay (c_accountNumber clientObj) (getTweetHistory w1) w1 in
              sleep delayMs w2
            else w1 in
          dispatch_loop tweetText rest final config results w3
      end
  end.

Definition postTweetToAllAccounts (tweetText : string) (twitterClients : list ClientObj)
  (config : Config) (w : World) : Outcome (list Result) * World :=
  match twitterClients with
  | [] => (Returned [], w)
  | _ :: _ =>
      match dispatch_loop tweetText twitterClients
              (nth_error twitterClients (List.length twitterClients - 1))
              config [] w with
      | (Thrown e, w1) => (Thrown e, w1)
      | (Returned results, w1) =>
          let '(_, w2) := saveTweetHistory tweetText results w1 in
          (Returned results, w2)
      end
  end.

(** ** Account registry: [readAccountsFromFile], [lazyLoadTwitterClient] *)

Definition newline : ascii := ascii_of_nat 10.
Definition comma : ascii := ascii_of_nat 44.

(** [line.trim() === '' || line.trim().startsWith('#')] *)
Definition is_skipped (line : string) : bool :=
  String.eqb (Js.trim line) "" || Js.startsWith (Js.trim line) "#".

(** [line.split(',').map(item => item.trim())] *)
Definition parts_of (line : string) : list string :=
  map Js.trim (Js.split comma line).

(** The [forEach] callback of [readAccountsFromFile] on one line;
    the state is [(accounts, accountCount)]. *)
Definition read_line (state : list Account * Z) (line : string) : list Account * Z :=
  let '(accounts, accountCount) := state in
  if is_skipped line then state
  else
    match parts_of line with
    | [appKey; appSecret; accessToken; accessSecret] =>
        if Js.truthy appKey && Js.truthy appSecret && Js.truthy accessToken
           && Js.truthy accessSecret
        then
          let accountCount := accountCount + 1 in
          ((accounts ++
            [{| appKey := appKey; appSecret := appSecret;
                accessToken := accessToken; accessSecret := accessSecret;
                a_accountNumber := accountCount |}])%list, accountCount)
        else state
    | _ => state
    end.

Definition sampleContent : string :=
  "# Twitter accounts in format: APP_KEY,APP_SECRET,ACCESS_TOKEN,ACCESS_SECRET"
  ++ String newline "# Each line represents one account"
  ++ String newline "# Example: YOUR_APP_KEY,YOUR_APP_SECRET,YOUR_ACCESS_TOKEN,YOUR_ACCESS_SECRET"
  ++ String newline "# Add more accounts as needed, one per line in the same format".

(** The accounts read from a file of the given content. *)
Definition accounts_of_content (fileContent : string) : list Account :=
  fst (fold_left read_line (Js.split newline fileContent) ([], 0)).

Definition readAccountsFromFile (w : World) : list Account * World :=
  match accounts_txt w with
  | None => ([], set_accounts_txt (Some sampleContent) w)
  | Some fileContent => (accounts_of_content fileContent, w)
  end.

(** The [forEach] callback of [lazyLoadTwitterClient] on one line; the
    state is [(account, lineCount)] and [skipped] is the number of blank
    and comment lines of the whole file. *)
Definition lazy_line (accountNumber : Z) (skipped : Z) (state : option Account * Z)
  (line : string) : option Account * Z :=
  let '(account, lineCount) := state in
  let lineCount := lineCount + 1 in
  if is_skipped line then (account, lineCount)
  else
    match parts_of line with
    | [appKey; appSecret; accessToken; accessSecret] =>
        let currentAccountNumber := lineCount - skipped in
        if currentAccountNumber =? accountNumber then
          if Js.truthy appKey && Js.truthy appSecret && Js.truthy accessToken
             && Js.truthy accessSecret
          then
            (Some {| appKey := appKey; appSecret := appSecret;
                     accessToken := accessToken; accessSecret := accessSecret;
                     a_accountNumber := accountNumber |}, lineCount)
          else (account, lineCount)
        else (account, lineCount)
    | _ => (account, lineCount)
    end.

(** The account that the scan of [lazyLoadTwitterClient] finds. *)
Definition lazy_account (accountNumber : Z) (fileContent : string) : option Account :=
  let lines := Js.split newline fileContent in
  let skipped := Z.of_nat (List.length (filter is_skipped lines)) in
  fst (fold_left (lazy_line accountNumber skipped) lines (None, 0)).

(** [twitterClients.find(c => c.accountNumber === accountNumber)] *)
Definition find_client (accountNumber : Z) (twitterClients : list ClientObj)
  : option ClientObj :=
  find (fun c => c_accountNumber c =? accountNumber) twitterClients.

(** Returns the handle or [None] for [null], together with the array
    [twitterClients], which a successful load extends. *)
Definition lazyLoadTwitterClient (accountNumber : Z) (twitterClients : list ClientObj)
  (w : World) : option ClientObj * list ClientObj * World :=
  match find_client accountNumber twitterClients with
  | Some existingClient => (Some existingClient, twitterClients, w)
  | None =>
      match accounts_txt w with
      | None => (None, twitterClients, w)
      | Some fileContent =>
          match lazy_account accountNumber fileContent with
          | Some account =>
              let clientObj :=
                {| obj_id := next_obj_id w;
                   client := new_TwitterApi w account;
                   c_accountNumber := a_accountNumber account |} in
              (Some clientObj, (twitterClients ++ [clientObj])%list,
               set_next_obj_id (S (next_obj_id w)) w)
          | None => (None, twitterClients, w)
          end
      end
  end.

(** ** Retry sweep: [retryFailedTweets] *)

(** Keys of an object are enumerated by [for ... in] with the array
    indices first, in ascending order, then the other keys in the order
    of their creation. *)
Definition is_array_index (k : Z) : bool := (0 <=? k) && (k <? 4294967295).

Definition enumerated_before (k k' : Z) : bool :=
  is_array_index k && (negb (is_array_index k') || (k <? k')).

(** [tweetsByAccount[key].push(tweet)], creating the key when absent. *)
Fixpoint group_push (tweet : FailedTweet) (groups : list (Z * list FailedTweet))
  : list (Z * list FailedTweet) :=
  match groups with
  | [] => [(f_accountNumber tweet, [tweet])]
  | (k, tweets) :: rest =>
      if k =? f_accountNumber tweet then (k, (tweets ++ [tweet])%list) :: rest
      else if enumerated_before (f_accountNumber tweet) k
              && negb (existsb (fun g => fst g =? f_accountNumber tweet) rest)
           then (f_accountNumber tweet, [tweet]) :: (k, tweets) :: rest
           else (k, tweets) :: group_push tweet rest
  end.

Definition tweetsByAccount (failedTweets : list FailedTweet)
  : list (Z * list FailedTweet) :=
  fold_left (fun groups tweet => group_push tweet groups) failedTweets [].

(** [t.accountNumber === tweet.accountNumber && t.text === tweet.text] *)
Definition same_pair (tweet t : FailedTweet) : bool :=
  (f_accountNumber t =? f_accountNumber tweet) && String.eqb (f_text t) (f_text tweet).

(** The state of the sweep: the local array [failedTweets], the array
    [twitterClients] and the world. *)
Record Sweep := {
  sw_failedTweets : list FailedTweet;
  sw_twitterClients : list ClientObj;
  sw_world : World
}.

(** One turn of [for (const tweet of accountTweets)].  [Thrown] is a
    rejection of the awaited attempt, which ends the sweep in its
    [catch]. *)
Definition replay (accountNumber : Z) (clientObj : option ClientObj) (config : Config)
  (tweet : FailedTweet) (s : Sweep) : Outcome unit * Sweep :=
  let '(handle, twitterClients, w1) :=
    match clientObj with
    | Some c => (Some c, sw_twitterClients s, sw_world s)
    | None => lazyLoadTwitterClient accountNumber (sw_twitterClients s) (sw_world s)
    end in
  let '(attempt, w2) :=
    match handle with
    | Some c => postTweetWithClient (f_text tweet) c config 1 w1
    | None =>
        outer_catch
          (TypeError "Cannot destructure property 'client' of 'twitterClientObj' as it is null.")
          w1
    end in
  match attempt with
  | Thrown e =>
      (Thrown e, {| sw_failedTweets := sw_failedTweets s;
                    sw_twitterClients := twitterClients;
                    sw_world := w2 |})
  | Returned result =>
      let '(failedTweets, w3) :=
        if success result then
          let failedTweets :=
            filter (fun t => negb (same_pair tweet t)) (sw_failedTweets s) in
          (failedTweets, set_failed_tweets_json (Some failedTweets) w2)
        else (sw_failedTweets s, w2) in
      (Returned tt, {| sw_failedTweets := failedTweets;
                       sw_twitterClients := twitterClients;
                       sw_world := sleep 5000 w3 |})
  end.

Fixpoint replay_all (accountNumber : Z) (clientObj : option ClientObj) (config : Config)
  (accountTweets : list FailedTweet) (s : Sweep) : Outcome unit * Sweep :=
  match accountTweets with
  | [] => (Returned tt, s)
  | tweet :: rest =>
      match replay accountNumber clientObj config tweet s with
      | (Thrown e, s1) => (Thrown e, s1)
      | (Returned _, s1) => replay_all accountNumber clientObj config rest s1
      end
  end.

(** The body of [for (const accountNumber in tweetsByAccount)]. *)
Fixpoint sweep_groups (config : Config) (groups : list (Z * list FailedTweet))
  (s : Sweep) : Outcome unit * Sweep :=
  match groups with
  | [] => (Returned tt, s)
  | (accountNumber, accountTweets) :: rest =>
      let clientObj := find_client accountNumber (sw_twitterClients s) in
      let '(skip, s1) :=
        match clientObj with
        | Some _ => (false, s)
        | None =>
            let '(lazyClient, twitterClients, w1) :=
              lazyLoadTwitterClient accountNumber (sw_twitterClients s) (sw_world s) in
            (match lazyClient with Some _ => false | None => true end,
             {| sw_failedTweets := sw_failedTweets s;
                sw_twitterClients := twitterClients;
                sw_world := w1 |})
        end in
      if skip then sweep_groups config rest s1
      else
        match replay_all accountNumber clientObj config accountTweets s1 with
        | (Thrown e, s2) => (Thrown e, s2)
        | (Returned _, s2) => sweep_groups config rest s2
        end
  end.

(** Resolves to [true] when the sweep ran to its end, with the array
    [twitterClients] as the sweep left it. *)
Definition retryFailedTweets (twitterClients : list ClientObj) (config : Config)
  (w : World) : bool * list ClientObj * World :=
  match failed_tweets_json w with
  | None => (false, twitterClients, w)
  | Some [] => (false, twitterClients, w)
  | Some failedTweets =>
      match sweep_groups config (tweetsByAccount failedTweets)
              {| sw_failedTweets := failedTweets;
                 sw_twitterClients := twitterClients;
                 sw_world := w |} with
      | (Thrown _, s) => (false, sw_twitterClients s, sw_world s)
      | (Returned _, s) => (true, sw_twitterClients s, sw_world s)
      end
  end.

(** ** Template feedback: the scores of [selectSmartTemplate]

    A score is a JavaScript number; it is kept as an exact rational, with
    [NaN] for the quotient 0/0 of a history entry without accounts. *)

Inductive Score :=
| NaN
| Num (q : Q).

Definition score_add (a b : Score) : Score :=
  match a, b with
  | Num x, Num y => Num (x + y)
  | _, _ => NaN
  end.

(** [a / n] for a count [n] that is not zero. *)
Definition score_div (a : Score) (n : nat) : Score :=
  match a with
  | Num x => Num (x / inject_Z (Z.of_nat n))
  | NaN => NaN
  end.

(** [tweet.accounts.filter(a => a.success).length / tweet.accounts.length] *)
Definition successRate (tweet : TweetRecord) : Score :=
  match List.length (t_accounts tweet) with
  | O => NaN
  | S n =>
      Num (Qmake (Z.of_nat (List.length (filter h_success (t_accounts tweet))))
             (Pos.of_nat (S n)))
  end.

(** [tweet.text && tweet.text.includes(template.content.substring(0, 20))] *)
Definition used_template (template : Template) (tweet : TweetRecord) : bool :=
  Js.truthy (t_text tweet)
  && Js.includes (t_text tweet) (Js.substring_to 20 (tpl_content template)).

(** The [forEach] callback over [recentTweets]; the state is
    [(score, matches)]. *)
Definition score_tweet (template : Template) (state : Score * nat) (tweet : TweetRecord)
  : Score * nat :=
  let '(score, matches) := state in
  if used_template template tweet
  then (score_add score (successRate tweet), S matches)
  else state.

(** The callback of [templates.map]: the score of one template. *)
Definition template_score (template : Template) (history : list TweetRecord) : Score :=
  let recentTweets := Js.slice_last 20 history in
  let '(score, matches) :=
    fold_left (score_tweet template) recentTweets (Num 0, 0%nat) in
  match matches with
  | O => Num (5 # 10)
  | S _ => score_div score matches
  end.

(** [templateScores] of [selectSmartTemplate], for a history that is not
    empty. *)
Definition templateScores (templates : list Template) (history : list TweetRecord)
  : list (Template * Score) :=
  map (fun template => (template, template_score template history)) templates.

(** ** Observations used in the statements *)

(** The content of the failure queue. *)
Definition queue (w : World) : list FailedTweet :=
  match failed_tweets_json w with
  | Some parsed => parsed
  | None => []
  end.

(** The waits of an attempt chain and its transport calls, counted from
    the world [w] it started in. *)
Definition chain_waits (w w' : World) (waits : list Z) : Prop :=
  sleeps w' = (sleeps w ++ waits)%list.

Definition chain_calls (w w' : World) (calls : list (Z * string)) : Prop :=
  tweet_calls w' = (tweet_calls w ++ calls)%list.

(** The specification's reading of a template's score: the entries among
    the most recent 20 that count for the template, and the average of
    their success ratios, 0.5 when there is none. *)
Definition matching_entries (template : Template) (history : list TweetRecord)
  : list TweetRecord :=
  filter (used_template template) (Js.slice_last 20 history).

Definition average (ratios : list Score) : Score :=
  score_div (fold_left score_add ratios (Num 0)) (List.length ratios).

Definition average_success (template : Template) (history : list TweetRecord) : Score :=
  match matching_entries template history with
  | [] => Num (5 # 10)
  | _ :: _ => average (map successRate (matching_entries template history))
  end.

(** ** Concrete scenarios used by the examples below *)

Definition world0 : World :=
  {| env_simulation := false;
     date_now := fun k => 1700000000000 + 1000 * Z.of_nat k;
     date_reads := 0;
     random_scale := fun _ delay => delay;
     random_draws := 0;
     failed_tweets_json := None;
     tweet_history_json := None;
     accounts_txt := None;
     new_TwitterApi := fun _ _ _ => Resolves (Some "1");
     next_obj_id := 100;
     tweet_calls := [];
     sleeps := [];
     delay_calls := [] |}.

Definition plain_config : Config :=
  {| simulationMode := false; twitterConfig := None |}.

(** A transport that settles every call the same way. *)
Definition always (o : TweetOutcome) : Client := fun _ _ => o.

Definition provider_error (code : Z) (message : string) : TweetOutcome :=
  Rejects (ThrownError (Some code) message).

(** The handle of account [n], with its own identity. *)
Definition handle (n : nat) (c : Client) : ClientObj :=
  {| obj_id := n; client := c; c_accountNumber := Z.of_nat n |}.

(** [n] copies of the letter x. *)
Fixpoint xs (n : nat) : string :=
  match n with
  | O => EmptyString
  | S k => String "x" (xs k)
  end.

(** A template, and a history entry that quotes it after other words. *)
Definition greeting : Template :=
  {| tpl_id := 1; tpl_name := "Greeting"; tpl_content := "hello";
     tpl_tags := [] |}.

Definition posted_fine (n : Z) : AccountRecord :=
  {| h_accountNumber := n; h_success := true; h_simulated := false;
     h_tweetId := Some "42";
     h_tweetUrl := Some "https://twitter.com/i/status/42";
     h_error := None |}.

Definition quoting : TweetRecord :=
  {| t_timestamp := 0; t_text := "say hello"; t_accounts := [posted_fine 1] |}.

(** Two queued posts of account 1, and a transport that accepts "y" and
    reports any other text as a duplicate. *)
Definition post_x : FailedTweet :=
  {| f_timestamp := 1; f_text := "x"; f_accountNumber := 1 |}.

Definition post_y : FailedTweet :=
  {| f_timestamp := 2; f_text := "y"; f_accountNumber := 1 |}.

Definition sweep_client : Client :=
  fun _ text =>
    if String.eqb text "y" then Resolves (Some "9")
    else provider_error 187 "Status is a duplicate.".

Definition queued_world : World :=
  set_failed_tweets_json (Some [post_x; post_y]) world0.

(** [config.twitterConfig?.maxRetries || 1]: the budget of a dispatch. *)
Definition dispatch_budget (config : Config) : Z :=
  Js.or_default
    (match twitterConfig config with
     | Some tc => maxRetries tc
     | None => None
     end) 1.

(** A configuration, and the one with its missing and zero settings
    written out. *)
Definition config_with (sim : bool) (delay retries : option Z) : Config :=
  {| simulationMode := sim;
     twitterConfig := Some {| retryDelay := delay; maxRetries := retries |} |}.

(** The shape of what an attempt resolves to. *)
Definition well_shaped (obj : ClientObj) (r : Result) : Prop :=
  r_accountNumber r = c_accountNumber obj
  /\ (success r = true ->
      error r = None
      /\ exists id, response_id r = Some id /\ id <> ""
           /\ (simulated r = false ->
               tweetUrl r = Some ("https://twitter.com/i/status/" ++ id))
           /\ (simulated r = true ->
               tweetUrl r = None /\ exists n, id = "simulated-tweet-" ++ n))
  /\ (success r = false ->
      simulated r = false /\ response_id r = None /\ tweetUrl r = None
      /\ exists e, error r = Some e).

(** The entries of the last 20 in which the account appears, and those
    of them in which its first line is a failure. *)
Definition account_window (accountNumber : Z) (history : list TweetRecord)
  : list TweetRecord :=
  filter (has_account accountNumber) (Js.slice_last 20 history).

Definition failed_for (accountNumber : Z) (tweet : TweetRecord) : bool :=
  match find (fun a => h_accountNumber a =? accountNumber) (t_accounts tweet) with
  | Some accountResult => negb (h_success accountResult)
  | None => false
  end.

(** A line that [readAccountsFromFile] turns into an account: not blank,
    not a comment, four parts that are not empty. *)
Definition is_credential (line : string) : bool :=
  negb (is_skipped line)
  && match parts_of line with
     | [appKey; appSecret; accessToken; accessSecret] =>
         Js.truthy appKey && Js.truthy appSecret && Js.truthy accessToken
         && Js.truthy accessSecret
     | _ => false
     end.

(** ** Startup: [initializeTwitterClients] *)

(** [accounts.map(account => ({ client: new TwitterApi(...), accountNumber }))]:
    one new object per account. *)
Fixpoint new_clients (accounts : list Account) (w : World) : list ClientObj * World :=
  match accounts with
  | [] => ([], w)
  | account :: rest =>
      let clientObj :=
        {| obj_id := next_obj_id w;
           client := new_TwitterApi w account;
           c_accountNumber := a_accountNumber account |} in
      let '(others, w1) := new_clients rest (set_next_obj_id (S (next_obj_id w)) w) in
      (clientObj :: others, w1)
  end.

Definition initializeTwitterClients (accounts : list Account) (w : World)
  : list ClientObj * World :=
  match accounts with
  | [] => ([], w)
  | _ :: _ => new_clients accounts w
  end.

(** The account that a line of credentials gives under a number. *)
Definition account_of_line (line : string) (number : Z) : option Account :=
  match parts_of line with
  | [appKey; appSecret; accessToken; accessSecret] =>
      if Js.truthy appKey && Js.truthy appSecret && Js.truthy accessToken
         && Js.truthy accessSecret
      then Some {| appKey := appKey; appSecret := appSecret;
                   accessToken := accessToken; accessSecret := accessSecret;
                   a_accountNumber := number |}
      else None
  | _ => None
  end.

(** [accounts.find(a => a.accountNumber === n)] *)
Definition find_account (n : Z) (accounts : list Account) : option Account :=
  find (fun a => a_accountNumber a =? n) accounts.


(** From [w] to [w'] at most [n] transport calls were made, and none was
    forgotten. *)
Definition calls_within (n : nat) (w w' : World) : Prop :=
  exists calls,
    tweet_calls w' = (tweet_calls w ++ calls)%list /\ (List.length calls <= n)%nat.

(** Every record of the history has a line for at least one account. *)
Definition scorable (history : list TweetRecord) : Prop :=
  Forall (fun tweet => t_accounts tweet <> []) history.

(** ** Tweet generation: [detectLanguage], [getAlternativeAIText], [generateTweet]

    The required tags hold Arabic letters, so the texts of this module
    are sequences of UTF-16 code units, which is what [length] and
    [substring] count. *)

Module Ai.

Definition units_of (s : string) : list Z :=
  map (fun c => Z.of_nat (nat_of_ascii c)) (list_ascii_of_string s).

Definition REQUIRED_TAGS : list Z :=
  (units_of "#FR33G4Z4 @pelestin_2022 #" ++ [1594; 1586; 1577]
   ++ units_of " https://x.com/Pelestin_2022/status/1939986014820315529")%list.

Inductive Lang := fa | ar | en | ru | zh | ja | ko | unknown.

Definition in_range (lo hi u : Z) : bool := (lo <=? u) && (u <=? hi).

(** [\w]: a letter, a digit or the underscore. *)
Definition is_word (u : Z) : bool :=
  in_range 65 90 u || in_range 97 122 u || in_range 48 57 u || (u =? 95).

(** [\s], and the white space that [trim] removes. *)
Definition is_white_space (u : Z) : bool :=
  in_range 9 13 u || (u =? 32) || (u =? 160) || (u =? 5760) || in_range 8192 8202 u
  || (u =? 8232) || (u =? 8233) || (u =? 8239) || (u =? 8287) || (u =? 12288)
  || (u =? 65279).

(** The class [[A-Za-z0-9\s\W]]. *)
Definition en_class (u : Z) : bool :=
  in_range 65 90 u || in_range 97 122 u || in_range 48 57 u || is_white_space u
  || negb (is_word u).

(** The patterns are tried in the order of the object's keys; a pattern
    without anchors matches when some unit is in its class, and
    [^[...]*$] when every unit is. *)
Definition detectLanguage (text : list Z) : Lang :=
  if existsb (in_range 1536 1791) text then fa
  else if existsb (in_range 1569 1610) text then ar
  else if forallb en_class text then en
  else if existsb (in_range 1024 1279) text then ru
  else if existsb (in_range 19968 40959) text then zh
  else if existsb (in_range 12352 12543) text then ja
  else if existsb (in_range 44032 55215) text then ko
  else unknown.

Fixpoint trimStart (s : list Z) : list Z :=
  match s with
  | [] => []
  | u :: rest => if is_white_space u then trimStart rest else s
  end.

Fixpoint trimEnd (s : list Z) : list Z :=
  match s with
  | [] => []
  | u :: rest =>
      match trimEnd rest with
      | [] => if is_white_space u then [] else [u]
      | kept => u :: kept
      end
  end.

Definition trim (s : list Z) : list Z := trimEnd (trimStart s).

Definition englishResponses : list (list Z) :=
  [ units_of "GiveRep project on Sui network is now distributing airdrops! Join the community and earn rewards by participating. Register now before rewards run out!";
    units_of "GiveRep airdrop on Sui network is live! Join the community and earn rewards by participating. Register now!";
    units_of "The GiveRep reputation protocol on Sui blockchain is revolutionizing community engagement. Join now to earn rewards!";
    units_of "Want to earn rewards for your participation? Join GiveRep on Sui network and start earning today! Limited spots available.";
    units_of "GiveRep airdrop alert! Participate in the Sui blockchain community and get rewarded for your contributions. #Crypto";
    units_of "GiveRep brings reputation management to Sui blockchain! Participate in the airdrop and be among the first to experience it.";
    units_of "New on Sui network: GiveRep reputation protocol with community rewards! Register now before the airdrop ends.";
    units_of "Earn tokens on Sui network with GiveRep! Join the reputation protocol that rewards community participation.";
    units_of "GiveRep is launching their token airdrop on Sui network! Verify your account now to qualify for rewards.";
    units_of "Missed previous airdrops? Don't miss GiveRep on Sui network! Join now and earn reputation tokens!" ].

(** The file of fallback texts: absent, not parsable, or parsed, with
    its array [fallbackTweets] (empty when the key is missing). *)
Inductive FallbackFile :=
| NoFile
| Unparsable
| Parsed (fallbackTweets : list (list Z)).

(** [pick n] is [Math.floor(Math.random() * n)].  An index out of the
    array gives [undefined], whose [substring] throws into the [catch]. *)
Definition getAlternativeAIText (file : FallbackFile) (pick : nat -> nat) : list Z :=
  let caught :=
    units_of "GiveRep airdrop on Sui network is now live! Join the community and earn rewards by participating." in
  let hardcoded :=
    match nth_error englishResponses (pick (List.length englishResponses)) with
    | Some selectedText => selectedText
    | None => caught
    end in
  match file with
  | NoFile => hardcoded
  | Unparsable => caught
  | Parsed [] => hardcoded
  | Parsed fallbackTweets =>
      match nth_error fallbackTweets (pick (List.length fallbackTweets)) with
      | Some selectedText => selectedText
      | None => caught
      end
  end.

(** What the request to the provider comes to: a rejection without a
    reason, whose [message] cannot be read; any other failure (a
    rejection with an error, a response without choices, without a
    message or with an empty content); or a content. *)
Inductive Completion :=
| RejectsNullish
| Fails
| Content (content : list Z).

(** [`${text} ${REQUIRED_TAGS}`] *)
Definition tagged (text : list Z) : list Z := (text ++ [32] ++ REQUIRED_TAGS)%list.

(** [280 - REQUIRED_TAGS.length - 1] *)
Definition maxMainTextLength : nat := 280 - List.length REQUIRED_TAGS - 1.

(** [text.substring(0, maxMainTextLength) + '...'] followed by the tags. *)
Definition truncated (text : list Z) : list Z :=
  tagged (firstn maxMainTextLength text ++ [46; 46; 46])%list.

(** [aiClient] is [None] for a missing client and otherwise what the
    request of this run comes to; [alternativeText] is the result of
    [getAlternativeAIText], which each path awaits at most once. *)
Definition generateTweet (aiClient : option Completion) (aiServiceName : string)
  (alternativeText : list Z) : list Z :=
  match aiClient with
  | None => tagged alternativeText
  | Some completion =>
      if String.eqb aiServiceName "Fallback" then tagged alternativeText
      else
        let after_error :=
          let tweetText := tagged alternativeText in
          if (280 <? List.length tweetText)%nat then truncated alternativeText
          else tweetText in
        match completion with
        | RejectsNullish =>
            tagged (units_of "GiveRep airdrop on Sui network is now live! Join the community and earn rewards by participating. Register now!")
        | Fails => after_error
        | Content content =>
            match trim content with
            | [] => after_error
            | tweet =>
                match detectLanguage tweet with
                | en =>
                    let tweetText := tagged tweet in
                    if (280 <? List.length tweetText)%nat then truncated tweet
                    else tweetText
                | _ => tagged alternativeText
                end
            end
        end
  end.

End Ai.

(** ** How an attempt unfolds *)

Section Attempt.

Variable obj : ClientObj.
Variable config : Config.
Variable P : string -> Z -> World -> Outcome Result * World -> Prop.

Hypothesis case_simulated : forall tweetText retryCount w,
  is_simulationMode config w = true ->
  P tweetText retryCount w
    (Returned (fst (simulate tweetText obj w)), snd (simulate tweetText obj w)).

Hypothesis case_posted : forall tweetText retryCount w r w1,
  is_simulationMode config w = false ->
  try_tweet tweetText obj w = (Returned r, w1) ->
  P tweetText retryCount w (Returned r, w1).

Hypothesis case_handler_throws : forall tweetText retryCount w twitterError w1 e,
  is_simulationMode config w = false ->
  try_tweet tweetText obj w = (Thrown twitterError, w1) ->
  parseTwitterError twitterError (c_accountNumber obj) = Thrown e ->
  P tweetText retryCount w (outer_catch e w1).

Hypothesis case_rate_limited : forall tweetText retryCount w twitterError w1 d res,
  is_simulationMode config w = false ->
  try_tweet tweetText obj w = (Thrown twitterError, w1) ->
  parseTwitterError twitterError (c_accountNumber obj) = Returned d ->
  code_is twitterError 429 = true ->
  retryCount > 0 ->
  P tweetText (retryCount - 1) (sleep (waitTime config) w1) res ->
  P tweetText retryCount w res.

Hypothesis case_duplicate : forall tweetText retryCount w twitterError w1 d res,
  is_simulationMode config w = false ->
  try_tweet tweetText obj w = (Thrown twitterError, w1) ->
  parseTwitterError twitterError (c_accountNumber obj) = Returned d ->
  code_is twitterError 429 = false ->
  code_is twitterError 187 = true ->
  retryCount > 0 ->
  P (uniqueTweet tweetText (hms (fst (Date_now w1)))) (retryCount - 1)
    (sleep 2000 (snd (Date_now w1))) res ->
  P tweetText retryCount w res.

Hypothesis case_failed : forall tweetText retryCount w twitterError w1 d,
  is_simulationMode config w = false ->
  try_tweet tweetText obj w = (Thrown twitterError, w1) ->
  parseTwitterError twitterError (c_accountNumber obj) = Returned d ->
  (code_is twitterError 429 = false /\ code_is twitterError 187 = false)
  \/ retryCount <= 0 ->
  P tweetText retryCount w (record_failure tweetText obj twitterError w1).

(** Every attempt is one of the six cases above. *)
Lemma postTweetWithClient_cases : forall n tweetText retryCount w,
  Z.to_nat retryCount = n ->
  P tweetText retryCount w (postTweetWithClient tweetText obj config retryCount w).
Proof.
  induction n as [|n IH]; intros tweetText retryCount w Hn;
    rewrite postTweetWithClient_equation_1.
  - destruct (is_simulationMode config w) eqn:Hsim.
    + destruct (simulate tweetText obj w) as [r w1] eqn:Hs.
      specialize (case_simulated tweetText retryCount w Hsim).
      rewrite Hs in case_simulated. exact case_simulated.
    + destruct (try_tweet tweetText obj w) as [[r|err] w1] eqn:Ht.
      * now apply case_posted.
      * destruct (parseTwitterError err (c_accountNumber obj)) as [d|e] eqn:Hp.
        -- destruct (code_is err 429) eqn:H429.
           ++ destruct (Z_gt_dec retryCount 0); [lia|].
              eapply case_failed; eauto; right; lia.
           ++ destruct (code_is err 187) eqn:H187.
              ** destruct (Z_gt_dec retryCount 0); [lia|].
                 eapply case_failed; eauto; right; lia.
              ** eapply case_failed; eauto.
        -- eapply case_handler_throws; eauto.
  - destruct (is_simulationMode config w) eqn:Hsim.
    + destruct (simulate tweetText obj w) as [r w1] eqn:Hs.
      specialize (case_simulated tweetText retryCount w Hsim).
      rewrite Hs in case_simulated. exact case_simulated.
    + destruct (try_tweet tweetText obj w) as [[r|err] w1] eqn:Ht.
      * now apply case_posted.
      * destruct (parseTwitterError err (c_accountNumber obj)) as [d|e] eqn:Hp.
        -- destruct (code_is err 429) eqn:H429.
           ++ destruct (Z_gt_dec retryCount 0); [|lia].
              eapply case_rate_limited; eauto.
              apply IH. lia.
           ++ destruct (code_is err 187) eqn:H187.
              ** destruct (Z_gt_dec retryCount 0); [|lia].
                 destruct (Date_now w1) as [now w2] eqn:Hd.
                 eapply case_duplicate; eauto.
                 rewrite Hd. simpl. apply IH. lia.
              ** eapply case_failed; eauto.
        -- eapply case_handler_throws; eauto.
Qed.

Lemma postTweetWithClient_ind : forall tweetText retryCount w,
  P tweetText retryCount w (postTweetWithClient tweetText obj config retryCount w).
Proof.
  intros. now apply (postTweetWithClient_cases (Z.to_nat retryCount)).
Qed.

End Attempt.

(** ** Facts about the pieces of an attempt *)

Lemma length_append (a b : string) :
  String.length (a ++ b) = (String.length a + String.length b)%nat.
Proof.
  induction a as [|c a IH]; simpl; [reflexivity | now rewrite IH].
Qed.

Lemma hms_length (t : Z) : String.length (hms t) = 8%nat.
Proof.
  unfold hms, two_digits. rewrite !length_append. reflexivity.
Qed.

Lemma truthy_length (s : string) :
  Js.truthy s = negb (String.length s =? 0)%nat.
Proof.
  destruct s; reflexivity.
Qed.

Lemma parseTwitterError_of_error (code : option Z) (message : string) (n : Z) :
  exists d, parseTwitterError (ThrownError code message) n = Returned d.
Proof.
  simpl. eauto.
Qed.

Lemma parseTwitterError_throws (e : JsThrown) (n : Z) (e' : JsThrown) :
  parseTwitterError e n = Thrown e' -> e = ThrownNullish.
Proof.
  destruct e; [reflexivity | discriminate].
Qed.

(** Validation comes first: an empty or oversize text throws before the
    transport is called. *)
Lemma try_tweet_invalid (tweetText : string) (obj : ClientObj) (w : World) :
  (280 < String.length tweetText)%nat \/ tweetText = "" ->
  exists message, try_tweet tweetText obj w = (Thrown (Error message), w).
Proof.
  unfold try_tweet. intros [Hlong | ->].
  - rewrite truthy_length.
    destruct (String.length tweetText =? 0)%nat eqn:H0.
    + apply Nat.eqb_eq in H0. lia.
    + simpl. apply Nat.ltb_lt in Hlong. rewrite Hlong. eauto.
  - simpl. eauto.
Qed.

(** What the inner [try] can throw, and what it has done by then. *)
Lemma try_tweet_thrown (tweetText : string) (obj : ClientObj) (w w1 : World)
  (e : JsThrown) :
  try_tweet tweetText obj w = (Thrown e, w1) ->
  (w1 = w /\ exists message, e = Error message)
  \/ (w1 = set_tweet_calls (tweet_calls w ++ [(c_accountNumber obj, tweetText)]) w
      /\ (client obj (List.length (tweet_calls w)) tweetText = Rejects e
          \/ exists message, e = Error message)).
Proof.
  unfold try_tweet.
  destruct (negb (Js.truthy tweetText) || (String.length tweetText =? 0)%nat).
  { intros H; inversion H; eauto. }
  destruct (280 <? String.length tweetText)%nat.
  { intros H; inversion H; eauto. }
  destruct (client obj (List.length (tweet_calls w)) tweetText) as [[id|]|e0] eqn:Hc.
  - destruct (Js.truthy id); intros H; inversion H; subst; eauto.
  - intros H; inversion H; subst; eauto.
  - intros H; inversion H; subst; eauto.
Qed.

Lemma try_tweet_returned (tweetText : string) (obj : ClientObj) (w w1 : World)
  (r : Result) :
  try_tweet tweetText obj w = (Returned r, w1) ->
  success r = true
  /\ (exists id, response_id r = Some id /\ Js.truthy id = true)
  /\ w1 = set_tweet_calls (tweet_calls w ++ [(c_accountNumber obj, tweetText)]) w.
Proof.
  unfold try_tweet.
  destruct (negb (Js.truthy tweetText) || (String.length tweetText =? 0)%nat);
    [discriminate|].
  destruct (280 <? String.length tweetText)%nat; [discriminate|].
  destruct (client obj (List.length (tweet_calls w)) tweetText) as [[id|]|e0];
    try discriminate.
  destruct (Js.truthy id) eqn:Hid; [|discriminate].
  intros H; inversion H; subst; simpl. eauto.
Qed.

(** A valid text whose transport call is rejected. *)
Lemma try_tweet_rejected (tweetText : string) (obj : ClientObj) (w : World)
  (e : JsThrown) :
  tweetText <> "" -> (String.length tweetText <= 280)%nat ->
  client obj (List.length (tweet_calls w)) tweetText = Rejects e ->
  try_tweet tweetText obj w =
  (Thrown e, set_tweet_calls (tweet_calls w ++ [(c_accountNumber obj, tweetText)]) w).
Proof.
  intros Hne Hlen Hc. unfold try_tweet.
  rewrite truthy_length.
  destruct (String.length tweetText =? 0)%nat eqn:H0.
  { apply Nat.eqb_eq in H0. destruct tweetText; [congruence | discriminate]. }
  simpl.
  destruct (280 <? String.length tweetText)%nat eqn:H280.
  { apply Nat.ltb_lt in H280. lia. }
  now rewrite Hc.
Qed.

(** The three ways an attempt continues after the handler of the inner
    [catch] has looked at the error. *)
Lemma attempt_rate_limited obj config tweetText retryCount w w1 message :
  is_simulationMode config w = false ->
  try_tweet tweetText obj w = (Thrown (ThrownError (Some 429) message), w1) ->
  retryCount > 0 ->
  postTweetWithClient tweetText obj config retryCount w =
  postTweetWithClient tweetText obj config (retryCount - 1) (sleep (waitTime config) w1).
Proof.
  intros Hsim Ht Hpos.
  rewrite postTweetWithClient_equation_1 at 1. rewrite Hsim, Ht. simpl.
  destruct (Z_gt_dec retryCount 0); [reflexivity | lia].
Qed.

Lemma attempt_duplicate obj config tweetText retryCount w w1 message :
  is_simulationMode config w = false ->
  try_tweet tweetText obj w = (Thrown (ThrownError (Some 187) message), w1) ->
  retryCount > 0 ->
  postTweetWithClient tweetText obj config retryCount w =
  postTweetWithClient (uniqueTweet tweetText (hms (fst (Date_now w1)))) obj config
    (retryCount - 1) (sleep 2000 (snd (Date_now w1))).
Proof.
  intros Hsim Ht Hpos.
  rewrite postTweetWithClient_equation_1 at 1. rewrite Hsim, Ht. simpl.
  destruct (Z_gt_dec retryCount 0); [reflexivity | lia].
Qed.

Lemma attempt_fails obj config tweetText retryCount w w1 code message :
  is_simulationMode config w = false ->
  try_tweet tweetText obj w = (Thrown (ThrownError code message), w1) ->
  (code <> Some 429 /\ code <> Some 187) \/ retryCount <= 0 ->
  postTweetWithClient tweetText obj config retryCount w =
  record_failure tweetText obj (ThrownError code message) w1.
Proof.
  intros Hsim Ht Hwhy.
  rewrite postTweetWithClient_equation_1. rewrite Hsim, Ht. simpl.
  destruct code as [c|]; simpl; [|reflexivity].
  destruct (c =? 429) eqn:H429.
  - destruct (Z_gt_dec retryCount 0); [|reflexivity].
    apply Z.eqb_eq in H429. subst. destruct Hwhy as [[H _]|H]; [congruence | lia].
  - destruct (c =? 187) eqn:H187; [|reflexivity].
    destruct (Z_gt_dec retryCount 0); [|reflexivity].
    apply Z.eqb_eq in H187. subst. destruct Hwhy as [[_ H]|H]; [congruence | lia].
Qed.

(** ** The posting state machine *)

(** When no transport call of the handle is rejected with [null] or
    [undefined], the attempt resolves to a result, and a result that is
    not a success records its error. *)
Lemma postTweetWithClient_resolves obj config :
  (forall k text, client obj k text <> Rejects ThrownNullish) ->
  forall tweetText retryCount w,
  exists r w',
    postTweetWithClient tweetText obj config retryCount w = (Returned r, w')
    /\ (success r = false -> exists e, error r = Some e).
Proof.
  intros Hclient.
  apply (postTweetWithClient_ind obj config
           (fun _ _ _ res => exists r w', res = (Returned r, w')
              /\ (success r = false -> exists e, error r = Some e))).
  - intros tweetText retryCount w _. unfold simulate.
    destruct (Date_now w) as [now w1]. simpl.
    eexists _, _. split; [reflexivity | simpl; discriminate].
  - intros tweetText retryCount w r w1 _ Ht.
    apply try_tweet_returned in Ht as [Hs _].
    eexists _, _. split; [reflexivity | congruence].
  - intros tweetText retryCount w err w1 e _ Ht Hp.
    apply parseTwitterError_throws in Hp. subst err.
    apply try_tweet_thrown in Ht as [[_ [m Hm]] | [_ [Hc | [m Hm]]]];
      try discriminate.
    now apply Hclient in Hc.
  - intros; assumption.
  - intros; assumption.
  - intros tweetText retryCount w err w1 d _ _ _ _. unfold record_failure.
    eexists _, _. split; [reflexivity | simpl; eauto].
Qed.

(** A rejection without a reason on the first call for a valid text
    escapes as a [ReferenceError], whatever the budget. *)
Lemma nullish_rejection_escapes obj config tweetText retryCount w :
  is_simulationMode config w = false ->
  tweetText <> "" -> (String.length tweetText <= 280)%nat ->
  client obj (List.length (tweet_calls w)) tweetText = Rejects ThrownNullish ->
  fst (postTweetWithClient tweetText obj config retryCount w)
  = Thrown (ReferenceError "accountNumber is not defined").
Proof.
  intros Hsim Hne Hlen Hc.
  rewrite postTweetWithClient_equation_1, Hsim.
  now rewrite (try_tweet_rejected tweetText obj w _ Hne Hlen Hc).
Qed.

(** C1 (as the code behaves).  A handle whose transport call is rejected
    without a reason makes the error handler read [message] of
    [undefined]; the resulting [TypeError] reaches the outer [catch],
    whose own body refers to [accountNumber] out of its scope, and the
    attempt is rejected with a [ReferenceError] instead of resolving to a
    failure result. *)
Theorem postTweetWithClient_rejects_on_internal_error :
  fst (postTweetWithClient "hi" (handle 1 (always (Rejects ThrownNullish)))
         plain_config 1 world0)
  = Thrown (ReferenceError "accountNumber is not defined").
Proof.
  vm_compute. reflexivity.
Qed.

Lemma chain_bounded obj config tweetText retryCount w :
  0 <= retryCount ->
  exists waits calls,
    chain_waits w (snd (postTweetWithClient tweetText obj config retryCount w)) waits
    /\ chain_calls w (snd (postTweetWithClient tweetText obj config retryCount w)) calls
    /\ Forall (fun ms => ms = waitTime config \/ ms = 2000) waits
    /\ Z.of_nat (List.length waits) <= retryCount
    /\ (List.length calls <= S (List.length waits))%nat.
Proof.
  revert tweetText retryCount w.
  apply (postTweetWithClient_ind obj config
           (fun _ retryCount w res => 0 <= retryCount ->
              exists waits calls,
                chain_waits w (snd res) waits /\ chain_calls w (snd res) calls
                /\ Forall (fun ms => ms = waitTime config \/ ms = 2000) waits
                /\ Z.of_nat (List.length waits) <= retryCount
                /\ (List.length calls <= S (List.length waits))%nat));
    unfold chain_waits, chain_calls.
  - intros tweetText retryCount w _ Hn. exists [], [].
    unfold simulate. destruct (Date_now w) eqn:Hd. unfold Date_now in Hd.
    inversion Hd; subst. simpl. rewrite !app_nil_r.
    repeat split; auto; lia.
  - intros tweetText retryCount w r w1 _ Ht Hn.
    apply try_tweet_returned in Ht as (_ & _ & ->).
    exists [], [(c_accountNumber obj, tweetText)]. simpl. rewrite app_nil_r.
    repeat split; auto; lia.
  - intros tweetText retryCount w err w1 e _ Ht _ Hn. simpl.
    apply try_tweet_thrown in Ht as [[-> _] | [-> _]].
    + exists [], []. simpl. rewrite !app_nil_r. repeat split; auto; lia.
    + exists [], [(c_accountNumber obj, tweetText)]. simpl. rewrite app_nil_r.
      repeat split; auto; lia.
  - intros tweetText retryCount w err w1 d res _ Ht _ _ Hpos IH Hn.
    destruct IH as (waits & calls & Hw & Hc & Hall & Hlen & Hcalls); [lia|].
    apply try_tweet_thrown in Ht as [[-> _] | [-> _]]; simpl in Hw, Hc.
    + exists (waitTime config :: waits), calls.
      rewrite Hw, Hc, <- app_assoc. simpl.
      repeat split; auto; try lia.
    + exists (waitTime config :: waits), ((c_accountNumber obj, tweetText) :: calls).
      rewrite Hw, Hc, <- !app_assoc. simpl.
      repeat split; auto; try lia.
  - intros tweetText retryCount w err w1 d res _ Ht _ _ _ Hpos IH Hn.
    destruct IH as (waits & calls & Hw & Hc & Hall & Hlen & Hcalls); [lia|].
    apply try_tweet_thrown in Ht as [[-> _] | [-> _]]; simpl in Hw, Hc.
    + exists (2000 :: waits), calls.
      rewrite Hw, Hc, <- app_assoc. simpl.
      repeat split; auto; try lia.
    + exists (2000 :: waits), ((c_accountNumber obj, tweetText) :: calls).
      rewrite Hw, Hc, <- !app_assoc. simpl.
      repeat split; auto; try lia.
  - intros tweetText retryCount w err w1 d _ Ht _ _ Hn. simpl.
    apply try_tweet_thrown in Ht as [[-> _] | [-> _]].
    + exists [], []. simpl. rewrite !app_nil_r. repeat split; auto; lia.
    + exists [], [(c_accountNumber obj, tweetText)]. simpl. rewrite app_nil_r.
      repeat split; auto; lia.
Qed.

(** C2.  With a budget [N >= 0] an attempt chain makes at most [N]
    retries: each retry is one wait (the rate-limit wait or the 2 seconds
    of a duplicate), both kinds are counted against the same [N], and the
    transport is called at most once more than there are retries.  With
    the budget at zero a rate-limit or duplicate error ends the chain:
    the attempt resolves to a failure without waiting or calling again. *)
Theorem retry_budget_bounds_the_chain obj config tweetText N w :
  0 <= N ->
  (exists waits calls,
      chain_waits w (snd (postTweetWithClient tweetText obj config N w)) waits
      /\ chain_calls w (snd (postTweetWithClient tweetText obj config N w)) calls
      /\ Forall (fun ms => ms = waitTime config \/ ms = 2000) waits
      /\ Z.of_nat (List.length waits) <= N
      /\ (List.length calls <= S (List.length waits))%nat)
  /\ (forall text0 w0 w1 code message,
        is_simulationMode config w0 = false ->
        try_tweet text0 obj w0 = (Thrown (ThrownError (Some code) message), w1) ->
        code = 429 \/ code = 187 ->
        exists r w2,
          postTweetWithClient text0 obj config 0 w0 = (Returned r, w2)
          /\ success r = false
          /\ sleeps w2 = sleeps w1 /\ tweet_calls w2 = tweet_calls w1).
Proof.
  intros HN. split.
  - now apply chain_bounded.
  - intros text0 w0 w1 code message Hsim Ht _.
    rewrite (attempt_fails obj config text0 0 w0 w1 (Some code) message Hsim Ht)
      by (right; lia).
    unfold record_failure. eexists _, _. split; [reflexivity|].
    simpl. auto.
Qed.

(** An instance: a transport that always answers 429, budgets 2 and 0. *)
Lemma retry_budget_bounds_the_chain_witness :
  let obj := handle 1 (always (provider_error 429 "Too Many Requests")) in
  (exists waits calls,
      chain_waits world0 (snd (postTweetWithClient "hi" obj plain_config 2 world0)) waits
      /\ chain_calls world0 (snd (postTweetWithClient "hi" obj plain_config 2 world0)) calls
      /\ Forall (fun ms => ms = waitTime plain_config \/ ms = 2000) waits
      /\ Z.of_nat (List.length waits) <= 2
      /\ (List.length calls <= S (List.length waits))%nat)
  /\ exists r w2,
       postTweetWithClient "hi" obj plain_config 0 world0 = (Returned r, w2)
       /\ success r = false
       /\ sleeps w2 = [] /\ tweet_calls w2 = [(1, "hi")].
Proof.
  intros obj.
  destruct (retry_budget_bounds_the_chain obj plain_config "hi" 2 world0)
    as [Hchain Hstop]; [lia|].
  split; [exact Hchain|].
  exact (Hstop "hi" world0
           (set_tweet_calls [(1, "hi")] world0) 429 "Too Many Requests"
           eq_refl eq_refl (or_introl eq_refl)).
Defined.

(** A rate limit followed by a duplicate, with a budget of 2: one wait
    of each kind, three transport calls, and the third error, a rate
    limit again, ends the chain. *)
Example mixed_retries_share_the_budget :
  let transport : Client :=
    fun k _ => if Nat.eqb k 1 then provider_error 187 "Status is a duplicate."
               else provider_error 429 "Too Many Requests" in
  let run := postTweetWithClient "hi" (handle 1 transport) plain_config 2 world0 in
  sleeps (snd run) = [300000; 2000]
  /\ tweet_calls (snd run) = [(1, "hi"); (1, "hi"); (1, "hi [22:13:20]")]
  /\ option_map success (match fst run with Returned r => Some r | Thrown _ => None end)
     = Some false.
Proof.
  vm_compute. repeat split.
Qed.

(** The rate-limit branch is taken for code 429 and no other: any other
    code but 187 goes to the failure at once, whatever the budget. *)
Lemma only_429_and_187_are_retried obj config tweetText retryCount w w1 code message :
  is_simulationMode config w = false ->
  try_tweet tweetText obj w = (Thrown (ThrownError (Some code) message), w1) ->
  code <> 429 -> code <> 187 ->
  postTweetWithClient tweetText obj config retryCount w =
  record_failure tweetText obj (ThrownError (Some code) message) w1.
Proof.
  intros Hsim Ht H429 H187.
  apply attempt_fails; auto. left. split; congruence.
Qed.

(** The default wait is 300 seconds. *)
Lemma waitTime_default : waitTime plain_config = 300000.
Proof. reflexivity. Qed.

(** C3 (as the code behaves).  With one retry left, a provider error of
    code 88 is not treated as a rate limit: the transport is called once,
    nothing is waited for, and the attempt fails at once, where code 429
    waits 300 seconds and calls the transport again. *)
Theorem code_88_fails_without_retry :
  let attempt code :=
    postTweetWithClient "hi" (handle 1 (always (provider_error code "Rate limit exceeded")))
      plain_config 1 world0 in
  (exists r, fst (attempt 88) = Returned r /\ success r = false)
  /\ sleeps (snd (attempt 88)) = []
  /\ tweet_calls (snd (attempt 88)) = [(1, "hi")]
  /\ sleeps (snd (attempt 429)) = [300000]
  /\ tweet_calls (snd (attempt 429)) = [(1, "hi"); (1, "hi")].
Proof.
  vm_compute. repeat split. eexists. split; reflexivity.
Qed.

(** C4.  Outside simulation mode a text of more than 280 units, or an
    empty text, fails validation: the attempt resolves to a failure that
    records the error, the transport is not called, nothing is waited for
    (no retry), and the text is appended to the failure queue for the
    account. *)
Theorem invalid_text_fails_before_transport obj config tweetText retryCount w :
  is_simulationMode config w = false ->
  (280 < String.length tweetText)%nat \/ tweetText = "" ->
  exists r w',
    postTweetWithClient tweetText obj config retryCount w = (Returned r, w')
    /\ success r = false
    /\ (exists e, error r = Some e)
    /\ tweet_calls w' = tweet_calls w
    /\ sleeps w' = sleeps w
    /\ failed_tweets_json w' =
       Some (queue w ++
             [{| f_timestamp := date_now w (date_reads w);
                 f_text := tweetText;
                 f_accountNumber := c_accountNumber obj |}])%list.
Proof.
  intros Hsim Hbad.
  destruct (try_tweet_invalid tweetText obj w Hbad) as [message Ht].
  rewrite (attempt_fails obj config tweetText retryCount w w None message Hsim Ht)
    by (left; split; discriminate).
  unfold record_failure. eexists _, _. split; [reflexivity|].
  simpl. repeat split; eauto.
Qed.

(** An instance: a text of 281 units. *)
Lemma invalid_text_fails_before_transport_witness :
  exists r w',
    postTweetWithClient (xs 281) (handle 1 (always (Resolves (Some "42"))))
      plain_config 1 world0 = (Returned r, w')
    /\ success r = false
    /\ (exists e, error r = Some e)
    /\ tweet_calls w' = []
    /\ sleeps w' = []
    /\ failed_tweets_json w' =
       Some [{| f_timestamp := 1700000000000; f_text := xs 281;
                f_accountNumber := 1 |}].
Proof.
  apply (invalid_text_fails_before_transport
           (handle 1 (always (Resolves (Some "42")))) plain_config (xs 281) 1 world0).
  - reflexivity.
  - left. vm_compute. lia.
Defined.

(** Without the tag the timestamp goes to the end: 11 more units. *)
Lemma uniqueTweet_appends tweetText t :
  Js.includes tweetText "@giverep" = false ->
  uniqueTweet tweetText (hms t) = tweetText ++ " [" ++ hms t ++ "]"
  /\ String.length (uniqueTweet tweetText (hms t)) = (String.length tweetText + 11)%nat.
Proof.
  intros Htag. unfold uniqueTweet. rewrite Htag. split; [reflexivity|].
  rewrite !length_append, hms_length. reflexivity.
Qed.

(** C10.  A valid text without "@giverep" that meets a duplicate-content
    error (code 187) with budget left is retried, after 2 seconds and with
    one unit less of budget, as the text followed by the 11 units
    " [HH:MM:SS]".  When the text has more than 269 units the retried
    text is longer than 280: the retry fails validation, the transport is
    not called a second time, and the chain resolves to a failure, with
    the retried text in the failure queue. *)
Theorem duplicate_retry_of_long_text_fails obj config tweetText retryCount w message :
  is_simulationMode config w = false ->
  tweetText <> "" ->
  (String.length tweetText <= 280)%nat ->
  Js.includes tweetText "@giverep" = false ->
  retryCount > 0 ->
  client obj (List.length (tweet_calls w)) tweetText = provider_error 187 message ->
  let timestamp := hms (date_now w (date_reads w)) in
  let retried := tweetText ++ " [" ++ timestamp ++ "]" in
  let called := set_tweet_calls (tweet_calls w ++ [(c_accountNumber obj, tweetText)]) w in
  String.length timestamp = 8%nat
  /\ String.length retried = (String.length tweetText + 11)%nat
  /\ postTweetWithClient tweetText obj config retryCount w
     = postTweetWithClient retried obj config (retryCount - 1)
         (sleep 2000 (snd (Date_now called)))
  /\ ((269 < String.length tweetText)%nat ->
      (280 < String.length retried)%nat
      /\ exists r w',
           postTweetWithClient tweetText obj config retryCount w = (Returned r, w')
           /\ success r = false
           /\ tweet_calls w' = (tweet_calls w ++ [(c_accountNumber obj, tweetText)])%list
           /\ sleeps w' = (sleeps w ++ [2000])%list
           /\ exists t,
                failed_tweets_json w' =
                Some (queue w ++
                      [{| f_timestamp := t; f_text := retried;
                          f_accountNumber := c_accountNumber obj |}])%list).
Proof.
  intros Hsim Hne Hlen Htag Hpos Hc timestamp retried called.
  destruct (uniqueTweet_appends tweetText (date_now w (date_reads w)) Htag)
    as [Hu Hul].
  fold timestamp in Hu, Hul. fold retried in Hu. rewrite Hu in Hul.
  pose proof (try_tweet_rejected tweetText obj w _ Hne Hlen Hc) as Ht.
  fold called in Ht.
  pose proof (attempt_duplicate obj config tweetText retryCount w _ message
                Hsim Ht Hpos) as Hstep.
  change (hms (fst (Date_now called))) with timestamp in Hstep.
  rewrite Hu in Hstep.
  split; [apply hms_length|]. split; [exact Hul|]. split; [exact Hstep|].
  intros Hlong.
  assert (Hover : (280 < String.length retried)%nat) by lia.
  split; [exact Hover|].
  rewrite Hstep.
  destruct (try_tweet_invalid retried obj (sleep 2000 (snd (Date_now called)))
              (or_introl Hover)) as [m Hinv].
  unfold Error in Hinv.
  rewrite (attempt_fails obj config retried (retryCount - 1)
             (sleep 2000 (snd (Date_now called)))
             (sleep 2000 (snd (Date_now called))) None m Hsim Hinv)
    by (left; split; discriminate).
  unfold record_failure. eexists _, _. split; [reflexivity|].
  simpl. repeat split; eauto.
Qed.

(** An instance: a text of 270 units, retried with 281. *)
Lemma duplicate_retry_of_long_text_fails_witness :
  let obj := handle 1 (always (provider_error 187 "Status is a duplicate.")) in
  let retried := xs 270 ++ " [" ++ hms 1700000000000 ++ "]" in
  String.length retried = 281%nat
  /\ exists r w',
       postTweetWithClient (xs 270) obj plain_config 1 world0 = (Returned r, w')
       /\ success r = false
       /\ tweet_calls w' = [(1, xs 270)]
       /\ sleeps w' = [2000]
       /\ exists t,
            failed_tweets_json w' =
            Some [{| f_timestamp := t; f_text := retried; f_accountNumber := 1 |}].
Proof.
  intros obj retried.
  destruct (duplicate_retry_of_long_text_fails obj plain_config (xs 270) 1 world0
              "Status is a duplicate.") as (_ & Hlen & _ & Hlong).
  - reflexivity.
  - discriminate.
  - vm_compute. lia.
  - vm_compute. reflexivity.
  - lia.
  - reflexivity.
  - split; [exact Hlen|].
    apply Hlong. vm_compute. lia.
Defined.

(** ** The history store *)

Lemma skipn_all_but (A : Type) (n : nat) (l : list A) :
  (n < List.length l)%nat ->
  List.length (skipn (List.length l - n) l) = n.
Proof.
  intros H. rewrite length_skipn. lia.
Qed.

(** C5.  After [saveTweetHistory] the stored history is the returned
    list, it has at most 100 entries, and it is the new record behind a
    suffix of the entries stored before: what is dropped is dropped from
    the front, only when more than 100 entries would be kept otherwise,
    and the entries kept are unchanged. *)
Theorem saveTweetHistory_keeps_last_100 tweetText results w :
  let old := getTweetHistory w in
  let stored := fst (saveTweetHistory tweetText results w) in
  tweet_history_json (snd (saveTweetHistory tweetText results w)) = Some stored
  /\ (List.length stored <= 100)%nat
  /\ exists evicted kept tweetRecord,
       old = (evicted ++ kept)%list
       /\ stored = (kept ++ [tweetRecord])%list
       /\ t_text tweetRecord = tweetText
       /\ List.length (t_accounts tweetRecord) = List.length results
       /\ (evicted = [] \/ List.length stored = 100%nat)
       /\ List.length evicted = (List.length old - 99)%nat.
Proof.
  intros old stored. subst stored. unfold saveTweetHistory. fold old.
  destruct (Date_now w) as [now w1].
  destruct (account_records results w1) as [accounts w2] eqn:Hacc.
  assert (Hlen : List.length accounts = List.length results).
  { clear - Hacc. revert w1 accounts w2 Hacc.
    induction results as [|r rest IH]; intros w1 accounts w2 Hacc; simpl in Hacc.
    - now inversion Hacc.
    - destruct (account_record r w1) as [a w1'].
      destruct (account_records rest w1') as [others w2'] eqn:Hrest.
      inversion Hacc; subst. simpl. f_equal. eauto. }
  set (tweetRecord := {| t_timestamp := now; t_text := tweetText;
                         t_accounts := accounts |}).
  simpl. rewrite length_app. simpl.
  destruct (100 <? List.length old + 1)%nat eqn:Hfull.
  - apply Nat.ltb_lt in Hfull.
    split; [reflexivity|]. split.
    { rewrite length_skipn, length_app. simpl. lia. }
    exists (firstn (List.length old + 1 - 100) old),
           (skipn (List.length old + 1 - 100) old), tweetRecord.
    split; [now rewrite firstn_skipn|].
    split.
    { rewrite skipn_app.
      replace (List.length old + 1 - 100 - List.length old)%nat with 0%nat by lia.
      reflexivity. }
    split; [reflexivity|]. split; [exact Hlen|]. split.
    { right. rewrite length_skipn, length_app. simpl. lia. }
    rewrite length_firstn. lia.
  - apply Nat.ltb_ge in Hfull.
    split; [reflexivity|]. split.
    { rewrite length_app. simpl. lia. }
    exists [], old, tweetRecord.
    repeat split; auto. simpl. lia.
Qed.

(** ** The account registry *)

(** C9 (as the code behaves).  For a file with one line of credentials
    and a final line break, bulk loading gives that line the number 1,
    and lazy loading of account 1 finds nothing: it subtracts the blank
    and comment lines of the whole file from the line count, the empty
    last line included.  With a malformed first line lazy loading of
    account 2 returns the credentials that bulk loading numbers 1. *)
Theorem lazy_numbering_differs_from_bulk :
  let nl := String newline "" in
  let one := "k,s,t,a" ++ nl in
  let two := "x" ++ nl ++ "k1,s1,t1,a1" ++ nl ++ "k2,s2,t2,a2" in
  let w := set_accounts_txt (Some one) world0 in
  map (fun a => (a_accountNumber a, appKey a)) (accounts_of_content one) = [(1, "k")]
  /\ fst (lazyLoadTwitterClient 1 [] w) = (None, [])
  /\ map (fun a => (a_accountNumber a, appKey a)) (accounts_of_content two)
     = [(1, "k1"); (2, "k2")]
  /\ option_map appKey (lazy_account 2 two) = Some "k1"
  /\ lazy_account 1 two = None.
Proof.
  vm_compute. repeat split.
Qed.

(** ** Template scores *)

Lemma substring_prefix_of (s : string) (k : nat) :
  exists after, s = String.substring 0 k s ++ after.
Proof.
  revert k. induction s as [|c s IH]; intros [|k]; simpl.
  - now exists "".
  - now exists "".
  - now exists (String c s).
  - destruct (IH k) as [after H]. exists after. now rewrite <- H.
Qed.

Lemma substring_inside (s : string) (m k : nat) :
  exists before after, s = before ++ String.substring m k s ++ after.
Proof.
  revert m. induction s as [|c s IH]; intros [|m].
  - destruct k; exists "", ""; reflexivity.
  - exists "", ""; reflexivity.
  - destruct (substring_prefix_of (String c s) k) as [after H].
    now exists "", after.
  - destruct (IH m) as (before & after & H).
    exists (String c before), after. simpl. now rewrite <- H.
Qed.

Lemma substring_of_middle (before sub after : string) :
  String.substring (String.length before) (String.length sub) (before ++ sub ++ after)
  = sub.
Proof.
  induction before as [|c before IH]; simpl; [|exact IH].
  induction sub as [|c sub IHs]; simpl.
  - now destruct after.
  - now rewrite IHs.
Qed.

(** [includes] is containment at any position. *)
Lemma includes_spec (s sub : string) :
  Js.includes s sub = true <-> exists before after, s = before ++ sub ++ after.
Proof.
  unfold Js.includes. split.
  - destruct (String.index 0 sub s) as [m|] eqn:Hi; [|discriminate].
    intros _. apply index_correct1 in Hi.
    destruct (substring_inside s m (String.length sub)) as (before & after & H).
    exists before, after. now rewrite Hi in H.
  - intros (before & after & ->).
    destruct (String.index 0 sub (before ++ sub ++ after)) eqn:Hi; [reflexivity|].
    destruct sub as [|c sub].
    + apply index_correct4 in Hi. lia.
    + exfalso.
      apply (index_correct3 0 (String.length before) _ _ Hi);
        [discriminate | lia | apply substring_of_middle].
Qed.

(** The accumulation over the recent entries is a sum over the entries
    that match. *)
Lemma fold_score_tweet template (l : list TweetRecord) (score : Score) (matches : nat) :
  fold_left (score_tweet template) l (score, matches)
  = (fold_left score_add (map successRate (filter (used_template template) l)) score,
     (matches + List.length (filter (used_template template) l))%nat).
Proof.
  revert score matches. induction l as [|tweet l IH]; intros score matches; simpl.
  - now rewrite Nat.add_0_r.
  - destruct (used_template template tweet) eqn:Hused; simpl.
    + rewrite IH. f_equal. lia.
    + apply IH.
Qed.

(** C8 (as stated).  An entry counts for a template although its text
    does not begin with the template's first 20 characters: "say hello"
    counts for the template "hello", whose score is then the entry's
    ratio 1 and not the neutral 0.5. *)
Lemma template_match_is_not_a_prefix_test :
  used_template greeting quoting = true
  /\ Js.startsWith (t_text quoting) (Js.substring_to 20 (tpl_content greeting)) = false
  /\ template_score greeting [quoting] = Num 1.
Proof.
  vm_compute. repeat split.
Qed.

(** C8 (amended).  An entry counts for a template exactly when its text
    is not empty and contains the template's first 20 characters at any
    position.  The score of a template is the average, over the entries
    among the most recent 20 that count for it, of the ratio of
    successful accounts of the entry; it is 0.5 when no entry counts. *)
Theorem template_score_averages_matches templates history :
  (forall template tweet,
      used_template template tweet = true <->
      t_text tweet <> ""
      /\ exists before after,
           t_text tweet = before ++ Js.substring_to 20 (tpl_content template) ++ after)
  /\ templateScores templates history
     = map (fun template => (template, average_success template history)) templates.
Proof.
  split.
  - intros template tweet. unfold used_template.
    rewrite andb_true_iff, includes_spec.
    destruct (t_text tweet); simpl; intuition congruence.
  - unfold templateScores. apply map_ext. intros template. f_equal.
    unfold template_score, average_success, matching_entries, average.
    rewrite fold_score_tweet. simpl.
    destruct (filter (used_template template) (Js.slice_last 20 history));
      [reflexivity|].
    simpl. now rewrite length_map.
Qed.

(** ** The dispatch loop *)

(** An attempt touches neither the history file nor the delay log. *)
Lemma try_tweet_world tweetText obj w o w1 :
  try_tweet tweetText obj w = (o, w1) ->
  w1 = w
  \/ w1 = set_tweet_calls (tweet_calls w ++ [(c_accountNumber obj, tweetText)]) w.
Proof.
  destruct o as [r|e]; intros H.
  - apply try_tweet_returned in H as (_ & _ & ->). now right.
  - apply try_tweet_thrown in H as [[-> _] | [-> _]]; auto.
Qed.

Lemma attempt_frame obj config tweetText retryCount w :
  tweet_history_json (snd (postTweetWithClient tweetText obj config retryCount w))
  = tweet_history_json w
  /\ delay_calls (snd (postTweetWithClient tweetText obj config retryCount w))
     = delay_calls w.
Proof.
  revert tweetText retryCount w.
  apply (postTweetWithClient_ind obj config
           (fun _ _ w res =>
              tweet_history_json (snd res) = tweet_history_json w
              /\ delay_calls (snd res) = delay_calls w)).
  - intros. split; reflexivity.
  - intros ? ? ? ? ? _ Ht. apply try_tweet_world in Ht as [-> | ->]; split; reflexivity.
  - intros ? ? ? ? ? ? _ Ht _.
    apply try_tweet_world in Ht as [-> | ->]; split; reflexivity.
  - intros ? ? ? ? ? ? ? _ Ht _ _ _ IH.
    apply try_tweet_world in Ht as [-> | ->]; exact IH.
  - intros ? ? ? ? ? ? ? _ Ht _ _ _ _ IH.
    apply try_tweet_world in Ht as [-> | ->]; exact IH.
  - intros ? ? ? ? ? ? _ Ht _ _.
    apply try_tweet_world in Ht as [-> | ->]; split; reflexivity.
Qed.

Lemma dispatch_loop_delays tweetText final config :
  forall remaining results w out w',
    dispatch_loop tweetText remaining final config results w = (Returned out, w') ->
    delay_calls w'
    = (delay_calls w
       ++ map (fun c => (c_accountNumber c, getTweetHistory w))
            (filter (not_final final) remaining))%list
    /\ tweet_history_json w' = tweet_history_json w
    /\ List.length out = (List.length results + List.length remaining)%nat.
Proof.
  induction remaining as [|clientObj rest IH]; intros results w out w' Hrun;
    simpl in Hrun.
  - inversion Hrun; subst. simpl. rewrite app_nil_r. auto.
  - match type of Hrun with
    | context [postTweetWithClient ?t ?o ?c ?b ?w0] =>
        destruct (attempt_frame o c t b w0) as [Hh Hd];
        destruct (postTweetWithClient t o c b w0) as [[result|e] w1]
    end; [|discriminate].
    simpl in Hh, Hd.
    apply IH in Hrun as (Hdelays & Hhist & Hlen).
    simpl filter.
    rewrite length_app in Hlen. simpl in Hlen.
    destruct (not_final final clientObj) eqn:Hfinal.
    + unfold calculateSmartDelay, sleep in Hdelays, Hhist. simpl in Hdelays, Hhist.
      unfold getTweetHistory in *. simpl in Hdelays.
      rewrite Hdelays, Hhist, Hh, Hd, <- app_assoc. simpl.
      split; [reflexivity|]. split; [reflexivity | lia].
    + unfold getTweetHistory in *.
      rewrite Hdelays, Hhist, Hh, Hd. simpl.
      split; [reflexivity|]. split; [reflexivity | lia].
Qed.

Lemma filter_not_final (l : list ClientObj) (x : ClientObj) :
  NoDup (map obj_id (l ++ [x])) ->
  filter (not_final (Some x)) (l ++ [x]) = l.
Proof.
  intros Hnd. rewrite filter_app. simpl. unfold not_final at 2.
  rewrite Nat.eqb_refl. simpl. rewrite app_nil_r.
  rewrite map_app in Hnd. simpl in Hnd.
  induction l as [|c l IH]; [reflexivity|].
  simpl in Hnd. inversion Hnd as [|? ? Hnotin Hnd']; subst.
  simpl. unfold not_final at 1.
  destruct (Nat.eqb (obj_id c) (obj_id x)) eqn:Heq.
  - apply Nat.eqb_eq in Heq. exfalso. apply Hnotin.
    apply in_or_app. right. left. now symmetry.
  - simpl. f_equal. now apply IH.
Qed.

Lemma saveTweetHistory_delay_calls tweetText results w :
  delay_calls (snd (saveTweetHistory tweetText results w)) = delay_calls w.
Proof.
  unfold saveTweetHistory.
  destruct (Date_now w) as [now w1] eqn:Hd.
  assert (H1 : delay_calls w1 = delay_calls w) by (inversion Hd; reflexivity).
  destruct (account_records results w1) as [accounts w2] eqn:Hacc.
  simpl. rewrite <- H1. clear - Hacc.
  revert w1 accounts w2 Hacc.
  induction results as [|r rest IH]; intros w1 accounts w2 Hacc; simpl in Hacc.
  - now inversion Hacc.
  - destruct (account_record r w1) as [a w1'] eqn:Ha.
    destruct (account_records rest w1') as [others w2'] eqn:Hrest.
    inversion Hacc; subst.
    rewrite (IH _ _ _ Hrest).
    unfold account_record in Ha.
    destruct (success r || simulated r); [|now inversion Ha].
    destruct (response_id r) as [[|c s]|]; destruct (simulated r);
      inversion Ha; reflexivity.
Qed.

(** A dispatch over handles whose transport calls are never rejected
    without a reason runs to its end. *)
Lemma dispatch_loop_resolves tweetText final config :
  forall remaining results w,
    (forall c, In c remaining ->
               forall k text, client c k text <> Rejects ThrownNullish) ->
    exists out w',
      dispatch_loop tweetText remaining final config results w = (Returned out, w').
Proof.
  induction remaining as [|clientObj rest IH]; intros results w Hall; simpl.
  - eauto.
  - match goal with
    | |- context [postTweetWithClient ?t ?o ?c ?b ?w0] =>
        destruct (postTweetWithClient_resolves o c
                    (Hall clientObj (or_introl eq_refl)) t b w0)
          as (r & w1 & -> & _)
    end.
    apply IH. intros c Hc. apply Hall. now right.
Qed.

Lemma postTweetToAllAccounts_resolves tweetText clients config w :
  (forall c, In c clients -> forall k text, client c k text <> Rejects ThrownNullish) ->
  exists results w',
    postTweetToAllAccounts tweetText clients config w = (Returned results, w').
Proof.
  intros Hall. unfold postTweetToAllAccounts.
  destruct clients as [|c0 rest]; [eauto|].
  destruct (dispatch_loop_resolves tweetText
              (nth_error (c0 :: rest) (List.length (c0 :: rest) - 1)) config
              (c0 :: rest) [] w Hall) as (out & w1 & ->).
  destruct (saveTweetHistory tweetText out w1). eauto.
Qed.

(** C7 (as stated).  With accounts 1 and 2 the one delay of the dispatch
    is computed for account 1, which has just been posted to, and not for
    account 2, which comes next. *)
Lemma dispatch_delay_is_not_for_next_account :
  let clients := [handle 1 (always (Resolves (Some "42")));
                  handle 2 (always (Resolves (Some "43")))] in
  let w' := snd (postTweetToAllAccounts "hi" clients plain_config world0) in
  map fst (delay_calls w') = [1]
  /\ map fst (delay_calls w') <> map c_accountNumber (tl clients).
Proof.
  vm_compute. split; [reflexivity | discriminate].
Qed.

(** C7 (amended).  In a dispatch over handles that are distinct objects,
    one delay is computed after each account but the last, in order, with
    the number of the account that has just been posted to and the
    history as the file holds it at that moment, which is the history of
    before the dispatch; every account gets one result. *)
Theorem dispatch_delay_is_for_posted_account tweetText clients config w results w' :
  NoDup (map obj_id clients) ->
  postTweetToAllAccounts tweetText clients config w = (Returned results, w') ->
  delay_calls w'
  = (delay_calls w
     ++ map (fun c => (c_accountNumber c, getTweetHistory w)) (removelast clients))%list
  /\ List.length results = List.length clients.
Proof.
  intros Hnd Hrun. unfold postTweetToAllAccounts in Hrun.
  destruct clients as [|c0 rest].
  { inversion Hrun; subst. simpl. rewrite app_nil_r. auto. }
  destruct (exists_last (l := c0 :: rest)) as (l & x & Hl); [discriminate|].
  rewrite Hl in *. clear Hl c0 rest.
  replace (nth_error (l ++ [x]) (List.length (l ++ [x]) - 1)) with (Some x) in Hrun.
  2:{ rewrite length_app. simpl.
      replace (List.length l + 1 - 1)%nat with (List.length l) by lia.
      rewrite nth_error_app2 by lia. now rewrite Nat.sub_diag. }
  destruct (dispatch_loop tweetText (l ++ [x]) (Some x) config [] w)
    as [[out|e] w1] eqn:Hloop; [|discriminate].
  apply dispatch_loop_delays in Hloop as (Hdelays & _ & Hlen).
  pose proof (saveTweetHistory_delay_calls tweetText out w1) as Hsave.
  destruct (saveTweetHistory tweetText out w1) as [h w2].
  inversion Hrun; subst. simpl in Hsave.
  rewrite Hsave, Hdelays, filter_not_final by exact Hnd.
  rewrite removelast_last. split; [reflexivity | exact Hlen].
Qed.

(** An instance: three accounts, the third of which is refused. *)
Lemma dispatch_delay_is_for_posted_account_witness :
  let clients := [handle 1 (always (Resolves (Some "42")));
                  handle 2 (always (Resolves (Some "43")));
                  handle 3 (always (provider_error 403 "Forbidden"))] in
  let run := postTweetToAllAccounts "hi" clients plain_config world0 in
  delay_calls (snd run) = [(1, []); (2, [])]
  /\ List.length (match fst run with Returned results => results | Thrown _ => [] end)
     = 3%nat.
Proof.
  intros clients run.
  assert (Hret : exists results, fst run = Returned results)
    by (vm_compute; eauto).
  apply (dispatch_delay_is_for_posted_account "hi" clients plain_config world0
           (match fst run with Returned results => results | Thrown _ => [] end)
           (snd run)).
  - repeat constructor; simpl; intuition discriminate.
  - fold run. destruct run as [o w']. destruct Hret as [results Hret].
    simpl in Hret. subst o. reflexivity.
Defined.

(** ** The failure queue and the retry sweep *)

(** What an attempt does to the failure queue: nothing when it ends in
    a success or is rejected, one more entry for the account when it
    ends in a failure. *)
Lemma attempt_queue obj config tweetText retryCount w :
  match postTweetWithClient tweetText obj config retryCount w with
  | (Returned r, w') =>
      if success r then failed_tweets_json w' = failed_tweets_json w
      else exists t text,
          failed_tweets_json w'
          = Some (queue w ++ [{| f_timestamp := t; f_text := text;
                                 f_accountNumber := c_accountNumber obj |}])%list
  | (Thrown _, w') => failed_tweets_json w' = failed_tweets_json w
  end.
Proof.
  revert tweetText retryCount w.
  apply (postTweetWithClient_ind obj config
           (fun _ _ w res =>
              match res with
              | (Returned r, w') =>
                  if success r then failed_tweets_json w' = failed_tweets_json w
                  else exists t text,
                      failed_tweets_json w'
                      = Some (queue w ++ [{| f_timestamp := t; f_text := text;
                                            f_accountNumber := c_accountNumber obj |}])%list
              | (Thrown _, w') => failed_tweets_json w' = failed_tweets_json w
              end)).
  - intros. reflexivity.
  - intros ? ? ? r ? _ Ht.
    destruct (try_tweet_returned _ _ _ _ _ Ht) as (-> & _ & ->). reflexivity.
  - intros ? ? ? ? ? ? _ Ht _.
    apply try_tweet_world in Ht as [-> | ->]; reflexivity.
  - intros ? ? ? ? ? ? res _ Ht _ _ _ IH.
    apply try_tweet_world in Ht as [-> | ->]; exact IH.
  - intros ? ? ? ? ? ? res _ Ht _ _ _ _ IH.
    apply try_tweet_world in Ht as [-> | ->]; exact IH.
  - intros ? ? ? ? ? ? _ Ht _ _. simpl.
    apply try_tweet_world in Ht as [-> | ->]; eexists _, _; reflexivity.
Qed.

(** One replay by a pooled handle [c].  When the attempt succeeds the
    snapshot without the entries of the replayed pair becomes the file;
    when it fails the snapshot is unchanged and the file keeps what the
    attempt left in it. *)
Lemma replay_effect accountNumber c config tweet s :
  match postTweetWithClient (f_text tweet) c config 1 (sw_world s) with
  | (Returned r, w2) =>
      fst (replay accountNumber (Some c) config tweet s) = Returned tt
      /\ sw_failedTweets (snd (replay accountNumber (Some c) config tweet s))
         = (if success r
            then filter (fun t => negb (same_pair tweet t)) (sw_failedTweets s)
            else sw_failedTweets s)
      /\ failed_tweets_json (sw_world (snd (replay accountNumber (Some c) config tweet s)))
         = (if success r
            then Some (filter (fun t => negb (same_pair tweet t)) (sw_failedTweets s))
            else failed_tweets_json w2)
  | (Thrown e, _) => fst (replay accountNumber (Some c) config tweet s) = Thrown e
  end.
Proof.
  unfold replay.
  destruct (postTweetWithClient (f_text tweet) c config 1 (sw_world s))
    as [[r|e] w2]; [|reflexivity].
  destruct (success r); simpl; auto.
Qed.

(** When the snapshot of the sweep is the content of the file, as it is
    when the sweep starts, a replay that resolves removes an entry of the
    queue exactly when the attempt succeeded and the entry has the pair
    (account number, text) that was replayed. *)
Lemma replay_in_sync accountNumber c config tweet s r w2 entry :
  sw_failedTweets s = queue (sw_world s) ->
  postTweetWithClient (f_text tweet) c config 1 (sw_world s) = (Returned r, w2) ->
  In entry (queue (sw_world s)) ->
  ~ In entry (queue (sw_world (snd (replay accountNumber (Some c) config tweet s))))
  <-> success r = true /\ same_pair tweet entry = true.
Proof.
  intros Hsync Hpost Hin.
  pose proof (replay_effect accountNumber c config tweet s) as He.
  pose proof (attempt_queue c config (f_text tweet) 1 (sw_world s)) as Hq.
  rewrite Hpost in He, Hq. destruct He as (_ & _ & Hfile).
  unfold queue at 1. rewrite Hfile. clear Hfile.
  destruct (success r).
  - rewrite Hsync. rewrite filter_In. split.
    + intros Hout. split; [reflexivity|].
      destruct (same_pair tweet entry); [reflexivity|].
      exfalso. apply Hout. auto.
    + intros [_ Hsame] [_ Hkeep]. rewrite Hsame in Hkeep. discriminate.
  - destruct Hq as (t & text & ->). split.
    + intros Hout. exfalso. apply Hout. apply in_or_app. now left.
    + intros [H _]. discriminate.
Qed.

(** C6 (as the code behaves).  The queue holds the posts "x" and "y" of
    account 1.  The replay of "x" meets a duplicate error, its retry with
    a timestamp meets it again, and the attempt queues the retried text:
    the file holds three entries.  The replay of "y" succeeds and the
    sweep writes its own list without "y" to the file: the entry of the
    retried text is gone, although no replay of that account and text has
    succeeded; the transport saw the retried text once, and refused it. *)
Theorem sweep_drops_entries_queued_during_the_sweep :
  let obj := handle 1 sweep_client in
  let s0 := {| sw_failedTweets := [post_x; post_y];
               sw_twitterClients := [obj];
               sw_world := queued_world |} in
  let s1 := snd (replay 1 (Some obj) plain_config post_x s0) in
  let s2 := snd (replay 1 (Some obj) plain_config post_y s1) in
  let retried := {| f_timestamp := 1700000001000; f_text := "x [22:13:20]";
                    f_accountNumber := 1 |} in
  queue (sw_world s1) = [post_x; post_y; retried]
  /\ queue (sw_world s2) = [post_x]
  /\ tweet_calls (sw_world s2) = [(1, "x"); (1, "x [22:13:20]"); (1, "y")]
  /\ (let '(done, _, w') := retryFailedTweets [obj] plain_config queued_world in
      done = true /\ queue w' = [post_x] /\ tweet_calls w' = tweet_calls (sw_world s2)).
Proof.
  vm_compute. repeat split.
Qed.

(** * Further properties of the code *)

(** ** The attempt: simulation mode and the shape of a result *)

(** X1.  In simulation mode nothing is validated and nothing is sent: for
    every text, also an empty one or one of more than 280 units, the
    attempt resolves to a simulated success named after the clock, and
    the world is the one of before with one more reading of the clock
    (no transport call, no wait, no entry in the failure queue). *)
Theorem simulation_skips_validation_and_transport obj config tweetText retryCount w :
  is_simulationMode config w = true ->
  exists r,
    postTweetWithClient tweetText obj config retryCount w
    = (Returned r, set_date_reads (S (date_reads w)) w)
    /\ success r = true /\ simulated r = true
    /\ response_id r
       = Some ("simulated-tweet-" ++ Js.string_of_Z (date_now w (date_reads w)))
    /\ r_accountNumber r = c_accountNumber obj
    /\ tweetUrl r = None /\ error r = None.
Proof.
  intros Hsim. rewrite postTweetWithClient_equation_1, Hsim.
  unfold simulate, Date_now. eexists. split; [reflexivity|].
  simpl. repeat split.
Qed.

(** An instance: a text of 281 units under [simulationMode: true]. *)
Lemma simulation_skips_validation_and_transport_witness :
  let config := {| simulationMode := true; twitterConfig := None |} in
  exists r,
    postTweetWithClient (xs 281) (handle 1 (always (provider_error 403 "Forbidden")))
      config 1 world0
    = (Returned r, set_date_reads (S (date_reads world0)) world0)
    /\ success r = true /\ simulated r = true
    /\ response_id r
       = Some ("simulated-tweet-"
               ++ Js.string_of_Z (date_now world0 (date_reads world0)))
    /\ r_accountNumber r = c_accountNumber (handle 1 (always (provider_error 403 "Forbidden")))
    /\ tweetUrl r = None /\ error r = None.
Proof.
  intros config.
  apply (simulation_skips_validation_and_transport
           (handle 1 (always (provider_error 403 "Forbidden"))) config (xs 281) 1 world0).
  reflexivity.
Defined.

Lemma attempt_well_shaped obj config tweetText retryCount w r w' :
  postTweetWithClient tweetText obj config retryCount w = (Returned r, w') ->
  well_shaped obj r.
Proof.
  revert r w'. revert tweetText retryCount w.
  apply (postTweetWithClient_ind obj config
           (fun _ _ _ res => forall r w', res = (Returned r, w') -> well_shaped obj r));
    unfold well_shaped.
  - intros tweetText retryCount w _ r w' H. inversion H; subst; clear H.
    unfold simulate, Date_now. simpl. split; [reflexivity|]. split.
    + intros _. split; [reflexivity|]. eexists. split; [reflexivity|].
      split; [discriminate|]. split; [discriminate|].
      intros _. split; [reflexivity|]. eexists. reflexivity.
    + discriminate.
  - intros tweetText retryCount w r0 w1 _ Ht r w' H. inversion H; subst; clear H.
    unfold try_tweet in Ht.
    destruct (negb (Js.truthy tweetText) || (String.length tweetText =? 0)%nat);
      [discriminate|].
    destruct (280 <? String.length tweetText)%nat; [discriminate|].
    destruct (client obj (List.length (tweet_calls w)) tweetText) as [[id|]|e0];
      try discriminate.
    destruct (Js.truthy id) eqn:Hid; [|discriminate].
    inversion Ht; subst; clear Ht. simpl. split; [reflexivity|]. split.
    + intros _. split; [reflexivity|]. exists id. split; [reflexivity|].
      split; [intros ->; discriminate|]. split; [reflexivity | discriminate].
    + discriminate.
  - intros ? ? ? ? ? ? _ _ _ r w' H. discriminate.
  - intros; eauto.
  - intros; eauto.
  - intros tweetText retryCount w err w1 d _ _ _ _ r w' H.
    unfold record_failure in H. inversion H; subst; clear H. simpl.
    split; [reflexivity|]. split; [discriminate|].
    intros _. repeat split; eauto.
Qed.

(** X2.  Whatever an attempt resolves to carries the account number of the
    handle.  A success has an identifier that is not empty and no error;
    outside simulation its URL is the status address of that identifier,
    in simulation it has no URL and its identifier begins with
    "simulated-tweet-".  A failure is never simulated, has neither
    identifier nor URL, and records the error. *)
Theorem attempt_result_shape obj config tweetText retryCount w r w' :
  postTweetWithClient tweetText obj config retryCount w = (Returned r, w') ->
  r_accountNumber r = c_accountNumber obj
  /\ (success r = true ->
      error r = None
      /\ exists id, response_id r = Some id /\ id <> ""
           /\ (simulated r = false ->
               tweetUrl r = Some ("https://twitter.com/i/status/" ++ id))
           /\ (simulated r = true ->
               tweetUrl r = None /\ exists n, id = "simulated-tweet-" ++ n))
  /\ (success r = false ->
      simulated r = false /\ response_id r = None /\ tweetUrl r = None
      /\ exists e, error r = Some e).
Proof.
  apply attempt_well_shaped.
Qed.

(** An instance: a transport that answers with the identifier 42. *)
Lemma attempt_result_shape_witness :
  let obj := handle 1 (always (Resolves (Some "42"))) in
  let run := postTweetWithClient "hi" obj plain_config 1 world0 in
  exists r, fst run = Returned r
    /\ r_accountNumber r = 1
    /\ success r = true
    /\ tweetUrl r = Some "https://twitter.com/i/status/42".
Proof.
  intros obj run.
  assert (Hret : exists r, fst run = Returned r /\ success r = true
                           /\ simulated r = false /\ response_id r = Some "42")
    by (vm_compute; eexists; repeat split).
  destruct Hret as (r & Hr & Hs & Hsim & Hid).
  exists r. split; [exact Hr|].
  destruct (attempt_result_shape obj plain_config "hi" 1 world0 r (snd run))
    as (Hacc & Hok & _).
  - subst run.
    destruct (postTweetWithClient "hi" obj plain_config 1 world0) as [o w'].
    simpl in Hr. now subst o.
  - split; [exact Hacc|]. split; [exact Hs|].
    destruct (Hok Hs) as (_ & id & Hid' & _ & Hurl & _).
    rewrite Hid in Hid'. inversion Hid'; subst id. now apply Hurl.
Defined.

(** ** The text retried after a duplicate *)

Lemma append_assoc (a b c : string) : (a ++ b) ++ c = a ++ b ++ c.
Proof.
  induction a as [|x a IH]; simpl; [reflexivity | now rewrite IH].
Qed.

Lemma append_nil_r (a : string) : a ++ "" = a.
Proof.
  induction a as [|x a IH]; simpl; [reflexivity | now rewrite IH].
Qed.

Lemma substring_whole (s : string) : String.substring 0 (String.length s) s = s.
Proof.
  induction s as [|c s IH]; simpl; [reflexivity | now rewrite IH].
Qed.

Lemma substring_split (s : string) (n : nat) :
  Js.substring_to n s ++ Js.substring_from n s = s.
Proof.
  unfold Js.substring_to, Js.substring_from.
  revert n. induction s as [|c s IH]; intros [|n]; simpl; try reflexivity.
  - now rewrite substring_whole.
  - now rewrite IH.
Qed.

Lemma substring_from_starts (s : string) (n k : nat) :
  exists rest, Js.substring_from n s = String.substring n k s ++ rest.
Proof.
  unfold Js.substring_from.
  revert n. induction s as [|c s IH]; intros [|n].
  - exists "". now destruct k.
  - exists "". reflexivity.
  - rewrite Nat.sub_0_r, substring_whole. apply substring_prefix_of.
  - simpl. apply IH.
Qed.

Lemma substring_to_length (s : string) (n : nat) :
  (String.length (Js.substring_to n s) <= n)%nat.
Proof.
  unfold Js.substring_to. revert n.
  induction s as [|c s IH]; intros [|n]; simpl; try lia.
  specialize (IH n). lia.
Qed.

(** In both branches the retried text has 11 units more than the text. *)
Lemma uniqueTweet_length tweetText t :
  String.length (uniqueTweet tweetText (hms t)) = (String.length tweetText + 11)%nat.
Proof.
  unfold uniqueTweet. destruct (Js.includes tweetText "@giverep").
  - pose proof (f_equal String.length
                  (substring_split tweetText (Js.indexOf tweetText "@giverep")))
      as Hsplit.
    rewrite length_append in Hsplit.
    rewrite !length_append, hms_length. simpl. lia.
  - rewrite !length_append, hms_length. simpl. lia.
Qed.

(** X3.  The timestamp is put in front of the first "@giverep" when there is
    one and at the end otherwise: in both cases the retried text has 11
    units more than the text and is the text again once the 11 units are
    taken out, so it always differs from the text. *)
Theorem uniqueTweet_inserts_11_units tweetText t :
  exists before after,
    tweetText = before ++ after
    /\ uniqueTweet tweetText (hms t)
       = before ++ (if Js.includes tweetText "@giverep"
                    then "[" ++ hms t ++ "] "
                    else " [" ++ hms t ++ "]") ++ after
    /\ (if Js.includes tweetText "@giverep"
        then (exists rest, after = "@giverep" ++ rest)
             /\ Js.includes before "@giverep" = false
        else after = "")
    /\ String.length (uniqueTweet tweetText (hms t))
       = (String.length tweetText + 11)%nat
    /\ uniqueTweet tweetText (hms t) <> tweetText.
Proof.
  pose proof (uniqueTweet_length tweetText t) as Hlen.
  assert (Hdiff : uniqueTweet tweetText (hms t) <> tweetText).
  { intros Heq. rewrite Heq in Hlen. lia. }
  revert Hlen Hdiff.
  unfold uniqueTweet, Js.includes, Js.indexOf.
  destruct (String.index 0 "@giverep" tweetText) as [i|] eqn:Hi; intros Hlen Hdiff.
  - exists (Js.substring_to i tweetText), (Js.substring_from i tweetText).
    pose proof (substring_split tweetText i) as Hsplit.
    split; [now rewrite Hsplit|]. split.
    { now rewrite !append_assoc. }
    split; [|split; assumption].
    split.
    + destruct (substring_from_starts tweetText i (String.length "@giverep"))
        as [rest Hrest].
      rewrite (index_correct1 _ _ _ _ Hi) in Hrest. now exists rest.
    + destruct (String.index 0 "@giverep" (Js.substring_to i tweetText))
        as [j|] eqn:Hj; [|reflexivity].
      exfalso.
      pose proof (index_correct1 _ _ _ _ Hj) as Hat.
      destruct (substring_inside (Js.substring_to i tweetText) j
                  (String.length "@giverep")) as (b1 & b2 & Hb).
      rewrite Hat in Hb.
      assert (Hjlt : (String.length b1 < i)%nat).
      { pose proof (substring_to_length tweetText i) as Hle.
        rewrite Hb in Hle. rewrite !length_append in Hle. simpl in Hle. lia. }
      apply (index_correct2 _ _ _ _ Hi (String.length b1)); [lia | exact Hjlt |].
      rewrite <- Hsplit, Hb, !append_assoc.
      apply substring_of_middle.
  - exists tweetText, "".
    split; [now rewrite append_nil_r|]. split.
    { now rewrite append_nil_r. }
    split; [reflexivity|]. split; assumption.
Qed.

(** X4.  A duplicate-content error with budget left on a valid text of more
    than 269 units always ends the chain in a failure, with or without
    "@giverep" in the text: the retried text has more than 280 units and
    fails validation, the transport is called once, and the retried text,
    not the original one, is what the failure queue receives. *)
Theorem duplicate_retry_overflows obj config tweetText retryCount w message :
  is_simulationMode config w = false ->
  (269 < String.length tweetText <= 280)%nat ->
  retryCount > 0 ->
  client obj (List.length (tweet_calls w)) tweetText = provider_error 187 message ->
  exists r w' t,
    postTweetWithClient tweetText obj config retryCount w = (Returned r, w')
    /\ success r = false
    /\ tweet_calls w' = (tweet_calls w ++ [(c_accountNumber obj, tweetText)])%list
    /\ failed_tweets_json w'
       = Some (queue w ++
               [{| f_timestamp := t;
                   f_text := uniqueTweet tweetText (hms (date_now w (date_reads w)));
                   f_accountNumber := c_accountNumber obj |}])%list.
Proof.
  intros Hsim Hlen Hpos Hc.
  assert (Hne : tweetText <> "") by (intros ->; simpl in Hlen; lia).
  pose proof (try_tweet_rejected tweetText obj w _ Hne (proj2 Hlen) Hc) as Ht.
  rewrite (attempt_duplicate obj config tweetText retryCount w _ message Hsim Ht Hpos).
  simpl fst. simpl snd.
  set (retried := uniqueTweet tweetText (hms (date_now w (date_reads w)))).
  pose proof (uniqueTweet_length tweetText (date_now w (date_reads w))) as Hul.
  fold retried in Hul.
  assert (Hover : (280 < String.length retried)%nat) by lia.
  match goal with
  | |- context [postTweetWithClient retried obj config _ ?w2] =>
      destruct (try_tweet_invalid retried obj w2 (or_introl Hover)) as [m Hinv];
      unfold Error in Hinv;
      rewrite (attempt_fails obj config retried (retryCount - 1) w2 w2 None m
                 Hsim Hinv) by (left; split; discriminate)
  end.
  unfold record_failure. eexists _, _, _. split; [reflexivity|].
  simpl. repeat split.
Qed.

(** An instance: 262 letters followed by the tag, 270 units in all. *)
Lemma duplicate_retry_overflows_witness :
  let obj := handle 1 (always (provider_error 187 "Status is a duplicate.")) in
  let text := xs 262 ++ "@giverep" in
  exists r w' t,
    postTweetWithClient text obj plain_config 1 world0 = (Returned r, w')
    /\ success r = false
    /\ tweet_calls w' = (tweet_calls world0 ++ [(c_accountNumber obj, text)])%list
    /\ failed_tweets_json w'
       = Some (queue world0 ++
               [{| f_timestamp := t;
                   f_text := uniqueTweet text (hms (date_now world0 (date_reads world0)));
                   f_accountNumber := c_accountNumber obj |}])%list.
Proof.
  intros obj text.
  apply (duplicate_retry_overflows obj plain_config text 1 world0
           "Status is a duplicate.").
  - reflexivity.
  - vm_compute. lia.
  - lia.
  - reflexivity.
Defined.

(** ** Settings that are missing or zero *)

(** An attempt reads the configuration for the simulation flag and the
    rate-limit wait only. *)
Lemma attempt_config_ext obj c1 c2 :
  simulationMode c1 = simulationMode c2 ->
  waitTime c1 = waitTime c2 ->
  forall n tweetText retryCount w,
    Z.to_nat retryCount = n ->
    postTweetWithClient tweetText obj c1 retryCount w
    = postTweetWithClient tweetText obj c2 retryCount w.
Proof.
  intros Hsim Hwait.
  assert (Hstep : forall tweetText retryCount w,
             (retryCount > 0 ->
              forall text' w', postTweetWithClient text' obj c1 (retryCount - 1) w'
                               = postTweetWithClient text' obj c2 (retryCount - 1) w') ->
             postTweetWithClient tweetText obj c1 retryCount w
             = postTweetWithClient tweetText obj c2 retryCount w).
  { intros tweetText retryCount w Hrec.
    rewrite (postTweetWithClient_equation_1 tweetText obj c1),
            (postTweetWithClient_equation_1 tweetText obj c2).
    unfold is_simulationMode. rewrite Hsim, Hwait.
    destruct (env_simulation w || simulationMode c2); [reflexivity|].
    destruct (try_tweet tweetText obj w) as [[r|err] w1]; [reflexivity|].
    destruct (parseTwitterError err (c_accountNumber obj)); [|reflexivity].
    destruct (code_is err 429).
    - destruct (Z_gt_dec retryCount 0); [now apply Hrec | reflexivity].
    - destruct (code_is err 187); [|reflexivity].
      destruct (Z_gt_dec retryCount 0); [|reflexivity].
      destruct (Date_now w1). now apply Hrec. }
  induction n as [|n IH]; intros tweetText retryCount w Hn; apply Hstep.
  - intros Hpos. lia.
  - intros Hpos text' w'. apply IH. lia.
Qed.

Lemma dispatch_loop_config_ext tweetText final c1 c2 :
  simulationMode c1 = simulationMode c2 ->
  waitTime c1 = waitTime c2 ->
  dispatch_budget c1 = dispatch_budget c2 ->
  forall remaining results w,
    dispatch_loop tweetText remaining final c1 results w
    = dispatch_loop tweetText remaining final c2 results w.
Proof.
  intros Hsim Hwait Hbudget.
  induction remaining as [|clientObj rest IH]; intros results w; simpl;
    [reflexivity|].
  fold (dispatch_budget c1). fold (dispatch_budget c2). rewrite Hbudget.
  rewrite (attempt_config_ext clientObj c1 c2 Hsim Hwait _ tweetText
             (dispatch_budget c2) w eq_refl).
  destruct (postTweetWithClient tweetText clientObj c2 (dispatch_budget c2) w)
    as [[result|e] w1]; [|reflexivity].
  apply IH.
Qed.

(** X5.  A dispatch under a configuration whose [retryDelay] or [maxRetries]
    is missing or zero is the dispatch under the configuration that
    spells out 300 seconds and 1 retry in their place: a [maxRetries] of
    0 does not turn retries off, and a [retryDelay] of 0 waits 5
    minutes.  Without a [twitterConfig] the same defaults apply. *)
Theorem zero_settings_mean_defaults tweetText twitterClients sim delay retries w :
  postTweetToAllAccounts tweetText twitterClients (config_with sim delay retries) w
  = postTweetToAllAccounts tweetText twitterClients
      (config_with sim (Some (Js.or_default delay 300))
                       (Some (Js.or_default retries 1))) w
  /\ postTweetToAllAccounts tweetText twitterClients
       {| simulationMode := sim; twitterConfig := None |} w
     = postTweetToAllAccounts tweetText twitterClients
         (config_with sim (Some 300) (Some 1)) w
  /\ dispatch_budget (config_with sim delay (Some 0)) = 1
  /\ waitTime (config_with sim (Some 0) retries) = 300000.
Proof.
  assert (Hidem : forall x d, d <> 0 ->
             Js.or_default (Some (Js.or_default x d)) d = Js.or_default x d).
  { intros [v|] d Hd; simpl.
    - destruct (v =? 0) eqn:Hv; [|now rewrite Hv].
      destruct (d =? 0) eqn:Hd0; [apply Z.eqb_eq in Hd0; lia | reflexivity].
    - destruct (d =? 0) eqn:Hd0; [apply Z.eqb_eq in Hd0; lia | reflexivity]. }
  split; [|split; [|split; reflexivity]].
  - unfold postTweetToAllAccounts.
    destruct twitterClients as [|c0 rest]; [reflexivity|].
    rewrite (dispatch_loop_config_ext tweetText _
               (config_with sim delay retries)
               (config_with sim (Some (Js.or_default delay 300))
                                (Some (Js.or_default retries 1))));
      [reflexivity | reflexivity | |].
    + unfold waitTime, config_with. cbn [twitterConfig retryDelay].
      rewrite Hidem by lia. reflexivity.
    + unfold dispatch_budget, config_with. cbn [twitterConfig maxRetries].
      rewrite Hidem by lia. reflexivity.
  - unfold postTweetToAllAccounts.
    destruct twitterClients as [|c0 rest]; [reflexivity|].
    rewrite (dispatch_loop_config_ext tweetText _
               {| simulationMode := sim; twitterConfig := None |}
               (config_with sim (Some 300) (Some 1)));
      reflexivity.
Qed.

(** ** What a dispatch returns and records *)

Lemma attempt_account obj config tweetText retryCount w r w' :
  postTweetWithClient tweetText obj config retryCount w = (Returned r, w') ->
  r_accountNumber r = c_accountNumber obj.
Proof.
  revert r w'. revert tweetText retryCount w.
  apply (postTweetWithClient_ind obj config
           (fun _ _ _ res => forall r w', res = (Returned r, w') ->
              r_accountNumber r = c_accountNumber obj)).
  - intros ? ? ? _ r w' H. inversion H. reflexivity.
  - intros tweetText ? w r0 w1 _ Ht r w' H. inversion H; subst; clear H.
    unfold try_tweet in Ht.
    destruct (negb (Js.truthy tweetText) || (String.length tweetText =? 0)%nat);
      [discriminate|].
    destruct (280 <? String.length tweetText)%nat; [discriminate|].
    destruct (client obj (List.length (tweet_calls w)) tweetText) as [[id|]|e0];
      try discriminate.
    destruct (Js.truthy id); [|discriminate].
    inversion Ht. reflexivity.
  - discriminate.
  - intros; eauto.
  - intros; eauto.
  - intros ? ? ? ? ? ? _ _ _ _ r w' H. inversion H. reflexivity.
Qed.

Lemma account_records_fields results w :
  map h_accountNumber (fst (account_records results w)) = map r_accountNumber results
  /\ map h_success (fst (account_records results w)) = map success results.
Proof.
  revert w. induction results as [|r rest IH]; intros w; simpl; [auto|].
  destruct (account_record r w) as [a w1] eqn:Ha.
  destruct (IH w1) as [IHn IHs].
  destruct (account_records rest w1) as [others w2]. simpl in *.
  assert (h_accountNumber a = r_accountNumber r /\ h_success a = success r) as [-> ->].
  { unfold account_record in Ha.
    destruct (if success r || simulated r
              then match response_id r with
                   | Some (String c rest0) => (Some (String c rest0), w)
                   | _ => if simulated r
                          then let '(now, w1) := Date_now w in
                               (Some ("simulated-" ++ Js.string_of_Z now), w1)
                          else (Some "unknown", w)
                   end
              else (None, w)) as [tweetId w0].
    inversion Ha. split; reflexivity. }
  rewrite IHn, IHs. auto.
Qed.

Lemma dispatch_loop_accounts tweetText final config :
  forall remaining results w out w',
    dispatch_loop tweetText remaining final config results w = (Returned out, w') ->
    map r_accountNumber out
    = (map r_accountNumber results ++ map c_accountNumber remaining)%list.
Proof.
  induction remaining as [|clientObj rest IH]; intros results w out w' Hrun;
    simpl in Hrun.
  - inversion Hrun; subst. simpl. now rewrite app_nil_r.
  - match type of Hrun with
    | context [postTweetWithClient ?t ?o ?c ?b ?w0] =>
        pose proof (attempt_account o c t b w0) as Hacc;
        destruct (postTweetWithClient t o c b w0) as [[result|e] w1]
    end; [|discriminate].
    apply IH in Hrun. rewrite Hrun, map_app. simpl.
    rewrite (Hacc result w1 eq_refl), <- app_assoc. reflexivity.
Qed.

(** X6.  Without accounts a dispatch returns the empty list and writes no
    history.  With accounts whose transport never rejects without a
    reason it runs to its end whatever fails on the way: it returns one
    result per account, in the order of the accounts, and the last entry
    of the history is a record of the text with one line per account, in
    the same order and with the same success flags. *)
Theorem dispatch_records_every_account tweetText clients config w :
  (forall c, In c clients -> forall k text, client c k text <> Rejects ThrownNullish) ->
  match clients with
  | [] => postTweetToAllAccounts tweetText clients config w = (Returned [], w)
  | _ :: _ =>
      exists results w' kept tweetRecord,
        postTweetToAllAccounts tweetText clients config w = (Returned results, w')
        /\ map r_accountNumber results = map c_accountNumber clients
        /\ getTweetHistory w' = (kept ++ [tweetRecord])%list
        /\ t_text tweetRecord = tweetText
        /\ map h_accountNumber (t_accounts tweetRecord) = map c_accountNumber clients
        /\ map h_success (t_accounts tweetRecord) = map success results
  end.
Proof.
  intros Hall. destruct clients as [|c0 rest]; [reflexivity|].
  unfold postTweetToAllAccounts.
  destruct (dispatch_loop_resolves tweetText
              (nth_error (c0 :: rest) (List.length (c0 :: rest) - 1)) config
              (c0 :: rest) [] w Hall) as (out & w1 & Hloop).
  rewrite Hloop.
  apply dispatch_loop_accounts in Hloop. simpl map in Hloop at 2. simpl app in Hloop.
  unfold saveTweetHistory.
  destruct (Date_now w1) as [now w2].
  pose proof (account_records_fields out w2) as [Hn Hs].
  destruct (account_records out w2) as [accounts w3]. simpl in Hn, Hs.
  set (tweetRecord := {| t_timestamp := now; t_text := tweetText;
                         t_accounts := accounts |}).
  set (history := (getTweetHistory w1 ++ [tweetRecord])%list).
  exists out. eexists.
  exists (if (100 <? List.length history)%nat
          then skipn (List.length history - 100) (getTweetHistory w1)
          else getTweetHistory w1), tweetRecord.
  split; [reflexivity|]. split; [exact Hloop|]. split.
  - unfold getTweetHistory at 1. simpl.
    destruct (100 <? List.length history)%nat eqn:Hfull; [|reflexivity].
    unfold history. rewrite skipn_app.
    replace (List.length (getTweetHistory w1 ++ [tweetRecord]) - 100
             - List.length (getTweetHistory w1))%nat with 0%nat.
    + reflexivity.
    + rewrite length_app. simpl. lia.
  - split; [reflexivity|]. simpl. rewrite Hn, Hs. auto.
Qed.

(** An instance: three accounts, the second of which is refused. *)
Lemma dispatch_records_every_account_witness :
  let clients := [handle 1 (always (Resolves (Some "42")));
                  handle 2 (always (provider_error 403 "Forbidden"));
                  handle 3 (always (Resolves (Some "43")))] in
  exists results w' kept tweetRecord,
    postTweetToAllAccounts "hi" clients plain_config world0 = (Returned results, w')
    /\ map r_accountNumber results = [1; 2; 3]
    /\ getTweetHistory w' = (kept ++ [tweetRecord])%list
    /\ t_text tweetRecord = "hi"
    /\ map h_accountNumber (t_accounts tweetRecord) = [1; 2; 3]
    /\ map h_success (t_accounts tweetRecord) = map success results.
Proof.
  intros clients.
  apply (dispatch_records_every_account "hi" clients plain_config world0).
  intros c [<- | [<- | [<- | []]]] k text; discriminate.
Defined.

(** ** The history line of an attempt *)

Lemma includes_simulated (n : string) :
  Js.includes ("simulated-tweet-" ++ n) "simulated" = true.
Proof.
  apply includes_spec. exists "", ("-tweet-" ++ n). reflexivity.
Qed.

(** X7.  The line that [saveTweetHistory] writes for what an attempt resolved
    to: no reading of the clock is needed, the line has the account
    number of the handle and the flags and the identifier of the result;
    a failure has no URL and an error text that is not empty, a simulated
    success has no URL, and a real success has the URL of the result
    unless its identifier is "unknown" or contains "simulated". *)
Theorem history_line_of_attempt obj config tweetText retryCount w r w1 w2 :
  postTweetWithClient tweetText obj config retryCount w = (Returned r, w1) ->
  snd (account_record r w2) = w2
  /\ h_accountNumber (fst (account_record r w2)) = c_accountNumber obj
  /\ h_success (fst (account_record r w2)) = success r
  /\ h_simulated (fst (account_record r w2)) = simulated r
  /\ h_tweetId (fst (account_record r w2)) = response_id r
  /\ (h_error (fst (account_record r w2)) = None <-> success r = true)
  /\ (success r = false ->
      h_tweetUrl (fst (account_record r w2)) = None
      /\ exists m, h_error (fst (account_record r w2)) = Some m /\ m <> "")
  /\ (simulated r = true -> h_tweetUrl (fst (account_record r w2)) = None)
  /\ (success r = true -> simulated r = false ->
      forall id, response_id r = Some id ->
                 id <> "unknown" -> Js.includes id "simulated" = false ->
                 h_tweetUrl (fst (account_record r w2)) = tweetUrl r).
Proof.
  intros Hrun. apply attempt_well_shaped in Hrun as (Hacc & Hok & Hko).
  unfold account_record. destruct (success r) eqn:Hs.
  - destruct (Hok eq_refl) as (Herr & id & Hid & Hne & Hreal & Hsimd).
    rewrite Hid. destruct id as [|c rest]; [congruence|].
    cbn -[Js.includes String.eqb String.append].
    split; [reflexivity|]. split; [exact Hacc|]. split; [reflexivity|].
    split; [reflexivity|]. split; [reflexivity|]. split; [tauto|].
    split; [discriminate|]. split.
    + intros Hsim. destruct (Hsimd Hsim) as (_ & n & Hn).
      rewrite Hn, includes_simulated, andb_false_r. reflexivity.
    + intros _ Hsim id' Hid' Hunk Hinc. inversion Hid'; subst id'.
      rewrite (Hreal Hsim), Hinc.
      destruct (String.eqb (String c rest) "unknown") eqn:He;
        [apply String.eqb_eq in He; congruence | reflexivity].
  - destruct (Hko eq_refl) as (Hsim & Hid & Hurl & e & He).
    rewrite Hsim, Hid, He. cbn -[Js.includes String.eqb String.append].
    split; [reflexivity|]. split; [exact Hacc|]. split; [reflexivity|].
    split; [reflexivity|]. split; [reflexivity|]. split.
    { split; [|discriminate].
      destruct e as [|code [|c m]]; discriminate. }
    split.
    { intros _. split; [reflexivity|].
      destruct e as [|code [|c m]]; eexists; split; try reflexivity; discriminate. }
    split; discriminate.
Qed.

(** An instance: the line of a refused attempt. *)
Lemma history_line_of_attempt_witness :
  let obj := handle 1 (always (provider_error 403 "Forbidden")) in
  let run := postTweetWithClient "hi" obj plain_config 1 world0 in
  exists r, fst run = Returned r
    /\ h_accountNumber (fst (account_record r world0)) = 1
    /\ h_success (fst (account_record r world0)) = success r
    /\ h_tweetId (fst (account_record r world0)) = response_id r.
Proof.
  intros obj run.
  assert (Hret : exists r, fst run = Returned r) by (vm_compute; eauto).
  destruct Hret as (r & Hr). exists r. split; [exact Hr|].
  destruct (history_line_of_attempt obj plain_config "hi" 1 world0 r (snd run) world0)
    as (_ & Ha & Hs & _ & Hi & _).
  - subst run.
    destruct (postTweetWithClient "hi" obj plain_config 1 world0) as [o w'].
    simpl in Hr. now subst o.
  - auto.
Defined.

(** ** The adaptive delay *)

Lemma has_account_find accountNumber tweet :
  has_account accountNumber tweet = true ->
  exists a, find (fun a => h_accountNumber a =? accountNumber) (t_accounts tweet)
            = Some a.
Proof.
  unfold has_account. induction (t_accounts tweet) as [|a l IH]; simpl;
    [discriminate|].
  destruct (h_accountNumber a =? accountNumber); eauto.
Qed.

Lemma fold_count_account accountNumber (l : list TweetRecord) :
  Forall (fun tweet => has_account accountNumber tweet = true) l ->
  forall failCount totalCount,
    fold_left (count_account accountNumber) l (failCount, totalCount)
    = ((failCount + List.length (filter (failed_for accountNumber) l))%nat,
       (totalCount + List.length l)%nat).
Proof.
  induction 1 as [|tweet l Hin _ IH]; intros failCount totalCount; simpl.
  - f_equal; lia.
  - destruct (has_account_find _ _ Hin) as [a Ha].
    unfold failed_for at 1. rewrite Ha.
    destruct (h_success a); simpl; rewrite IH; f_equal; lia.
Qed.

Lemma delay_of_counts (f t : nat) :
  (0 < t)%nat ->
  (let failRate := Qmake (Z.of_nat f) (Pos.of_nat t) in
   if negb (Qle_bool failRate (1 # 2)) then 60000
   else if negb (Qle_bool failRate (2 # 10)) then 45000
   else 30000)
  = (if (t <? 2 * f)%nat then 60000
     else if (t <? 5 * f)%nat then 45000
     else 30000).
Proof.
  intros Ht. cbv zeta. unfold Qle_bool. cbn [Qnum Qden].
  assert (Hpos : Z.pos (Pos.of_nat t) = Z.of_nat t).
  { rewrite <- positive_nat_Z, Nat2Pos.id by lia. reflexivity. }
  rewrite Hpos.
  destruct (t <? 2 * f)%nat eqn:H2.
  - apply Nat.ltb_lt in H2.
    destruct (Z.of_nat f * 2 <=? 1 * Z.of_nat t) eqn:Hq; [|reflexivity].
    apply Z.leb_le in Hq. lia.
  - apply Nat.ltb_ge in H2.
    destruct (Z.of_nat f * 2 <=? 1 * Z.of_nat t) eqn:Hq;
      [|apply Z.leb_gt in Hq; lia].
    cbn [negb].
    destruct (t <? 5 * f)%nat eqn:H5.
    + apply Nat.ltb_lt in H5.
      destruct (Z.of_nat f * 10 <=? 2 * Z.of_nat t) eqn:Hq5; [|reflexivity].
      apply Z.leb_le in Hq5. lia.
    + apply Nat.ltb_ge in H5.
      destruct (Z.of_nat f * 10 <=? 2 * Z.of_nat t) eqn:Hq5; [reflexivity|].
      apply Z.leb_gt in Hq5. lia.
Qed.

(** X8.  The delay before the random factor.  Only the last 20 entries
    count, and of these the ones that name the account, each by the first
    line it has for the account.  With [t] such entries, [f] of them
    failures: 30 s when there is none, 60 s when more than half failed
    ([2f > t]), 45 s when more than a fifth failed ([5f > t]), and 30 s
    otherwise; so half exactly is 45 s and a fifth exactly is 30 s. *)
Theorem base_delay_thresholds accountNumber history :
  let t := List.length (account_window accountNumber history) in
  let f := List.length (filter (failed_for accountNumber)
                          (account_window accountNumber history)) in
  base_delay accountNumber history
  = (if (t =? 0)%nat then 30000
     else if (t <? 2 * f)%nat then 60000
     else if (t <? 5 * f)%nat then 45000
     else 30000)
  /\ (f <= t <= 20)%nat
  /\ base_delay accountNumber history
     = base_delay accountNumber (Js.slice_last 20 history).
Proof.
  intros t f.
  assert (Hft : (f <= t <= 20)%nat).
  { subst t f. split; [apply filter_length_le|].
    unfold account_window.
    etransitivity; [apply filter_length_le|].
    unfold Js.slice_last. rewrite length_skipn. lia. }
  assert (Hmain : base_delay accountNumber history
                  = (if (t =? 0)%nat then 30000
                     else if (t <? 2 * f)%nat then 60000
                     else if (t <? 5 * f)%nat then 45000
                     else 30000)).
  { subst t f. unfold base_delay, account_window.
    destruct history as [|h0 hs]; [reflexivity|].
    set (recent := Js.slice_last 20 (h0 :: hs)).
    assert (Hall : Forall (fun tweet => has_account accountNumber tweet = true)
                     (filter (has_account accountNumber) recent)).
    { apply Forall_forall. intros x Hx. now apply filter_In in Hx. }
    pose proof (fold_count_account accountNumber _ Hall 0%nat 0%nat) as Hfold.
    destruct (filter (has_account accountNumber) recent) as [|x l] eqn:Hwin;
      [reflexivity|].
    rewrite Hfold. cbv beta iota zeta. rewrite !Nat.add_0_l.
    assert (Ht : (0 < List.length (x :: l))%nat) by (simpl; lia).
    pose proof (delay_of_counts
                  (List.length (filter (failed_for accountNumber) (x :: l)))
                  (List.length (x :: l)) Ht) as Hd.
    cbv zeta in Hd. rewrite Hd.
    destruct (List.length (x :: l) =? 0)%nat eqn:Ht0;
      [apply Nat.eqb_eq in Ht0; lia | reflexivity]. }
  split; [exact Hmain|]. split; [exact Hft|].
  unfold base_delay.
  assert (Hidem : Js.slice_last 20 (Js.slice_last 20 history) = Js.slice_last 20 history).
  { unfold Js.slice_last. rewrite length_skipn.
    replace (List.length history - (List.length history - 20) - 20)%nat with 0%nat by lia.
    reflexivity. }
  rewrite Hidem.
  destruct history as [|h0 hs]; [reflexivity|].
  destruct (Js.slice_last 20 (h0 :: hs)) as [|r0 rs] eqn:Hrec; [|reflexivity].
  reflexivity.
Qed.

(** ** The account registry: numbering and memoization *)

Lemma fold_read_line (lines : list string) :
  forall accounts,
  exists news,
    fold_left read_line lines (accounts, Z.of_nat (List.length accounts))
    = ((accounts ++ news)%list, Z.of_nat (List.length (accounts ++ news)))
    /\ map a_accountNumber news
       = map Z.of_nat (seq (S (List.length accounts)) (List.length news))
    /\ Forall (fun a => appKey a <> "" /\ appSecret a <> ""
                        /\ accessToken a <> "" /\ accessSecret a <> "") news
    /\ List.length news = List.length (filter is_credential lines).
Proof.
  induction lines as [|line lines IH]; intros accounts.
  - exists []. simpl. rewrite app_nil_r. auto.
  - cbn [fold_left filter].
    remember (read_line (accounts, Z.of_nat (List.length accounts)) line) as st eqn:Hst.
    unfold read_line in Hst.
    destruct (is_credential line) eqn:Hcred; unfold is_credential in Hcred.
    + destruct (is_skipped line); [discriminate|]. simpl in Hcred.
      destruct (parts_of line) as [|a [|b [|c [|d [|e l]]]]]; try discriminate.
      apply andb_true_iff in Hcred as [Hcred Hd].
      apply andb_true_iff in Hcred as [Hcred Hc].
      apply andb_true_iff in Hcred as [Ha Hb].
      rewrite Ha, Hb, Hc, Hd in Hst. cbn [andb] in Hst. cbv zeta in Hst.
      set (account := {| appKey := a; appSecret := b; accessToken := c;
                         accessSecret := d;
                         a_accountNumber := Z.of_nat (List.length accounts) + 1 |})
        in Hst.
      destruct (IH (accounts ++ [account])%list)
        as (news & Hfold & Hnum & Hall & Hlen).
      exists (account :: news).
      assert (Hcount : Z.of_nat (List.length accounts) + 1
                       = Z.of_nat (List.length (accounts ++ [account]))).
      { rewrite length_app. simpl. lia. }
      rewrite Hcount in Hst. subst st. rewrite Hfold, <- app_assoc. simpl app.
      split; [reflexivity|]. split; [|split].
      * simpl. f_equal; [lia|].
        rewrite Hnum, length_app. simpl.
        now replace (List.length accounts + 1)%nat
          with (S (List.length accounts)) by lia.
      * constructor; [|exact Hall]. simpl.
        repeat split; intros ->; discriminate.
      * simpl. now rewrite Hlen.
    + assert (Hsame : st = (accounts, Z.of_nat (List.length accounts))).
      { subst st. destruct (is_skipped line); [reflexivity|]. simpl in Hcred.
        destruct (parts_of line) as [|a [|b [|c [|d [|e l]]]]]; try reflexivity.
        now rewrite Hcred. }
      rewrite Hsame. apply IH.
Qed.

(** X9.  Bulk loading numbers the accounts 1, 2, 3, ... in the order of their
    lines, one account for each line that is neither blank nor a comment
    and has four parts that are not empty; no account has an empty
    credential. *)
Theorem bulk_numbers_are_consecutive fileContent :
  let accounts := accounts_of_content fileContent in
  map a_accountNumber accounts = map Z.of_nat (seq 1 (List.length accounts))
  /\ List.length accounts
     = List.length (filter is_credential (Js.split newline fileContent))
  /\ Forall (fun a => appKey a <> "" /\ appSecret a <> ""
                      /\ accessToken a <> "" /\ accessSecret a <> "") accounts.
Proof.
  unfold accounts_of_content.
  destruct (fold_read_line (Js.split newline fileContent) [])
    as (news & Hfold & Hnum & Hall & Hlen).
  simpl in Hfold. rewrite Hfold. simpl. auto.
Qed.

Lemma fold_read_line_skipped (lines : list string) state :
  Forall (fun line => is_skipped line = true) lines ->
  fold_left read_line lines state = state.
Proof.
  induction 1 as [|line lines Hs _ IH]; [reflexivity|].
  cbn [fold_left].
  replace (read_line state line) with state; [exact IH|].
  unfold read_line. destruct state. now rewrite Hs.
Qed.

Lemma fold_lazy_line_skipped accountNumber skipped (lines : list string) :
  Forall (fun line => is_skipped line = true) lines ->
  forall account lineCount,
    fold_left (lazy_line accountNumber skipped) lines (account, lineCount)
    = (account, lineCount + Z.of_nat (List.length lines)).
Proof.
  induction 1 as [|line lines Hs _ IH]; intros account lineCount.
  - simpl. f_equal. lia.
  - cbn [fold_left].
    replace (lazy_line accountNumber skipped (account, lineCount) line)
      with (account, lineCount + 1)
      by (unfold lazy_line; now rewrite Hs).
    rewrite IH. f_equal. simpl List.length. lia.
Qed.

(** X10.  A file of blank lines and comments only, such as the sample that
    [readAccountsFromFile] writes when there is no file, holds no
    account: bulk loading returns the empty list and lazy loading finds
    no account of any number. *)
Theorem comments_only_file_has_no_account fileContent accountNumber :
  Forall (fun line => is_skipped line = true) (Js.split newline fileContent) ->
  accounts_of_content fileContent = []
  /\ lazy_account accountNumber fileContent = None.
Proof.
  intros Hall. unfold accounts_of_content, lazy_account.
  rewrite fold_read_line_skipped by exact Hall.
  rewrite fold_lazy_line_skipped by exact Hall.
  auto.
Qed.

(** An instance: the sample file. *)
Lemma comments_only_file_has_no_account_witness :
  accounts_of_content sampleContent = []
  /\ lazy_account 1 sampleContent = None.
Proof.
  apply (comments_only_file_has_no_account sampleContent 1).
  vm_compute. repeat constructor.
Defined.

(** ** Lazy loading against bulk loading *)

Lemma read_line_spec accounts accountCount line :
  read_line (accounts, accountCount) line
  = if is_skipped line then (accounts, accountCount)
    else match account_of_line line (accountCount + 1) with
         | Some account => ((accounts ++ [account])%list, accountCount + 1)
         | None => (accounts, accountCount)
         end.
Proof.
  unfold read_line, account_of_line.
  destruct (is_skipped line); [reflexivity|].
  destruct (parts_of line) as [|a [|b [|c [|d [|e l]]]]]; try reflexivity.
  destruct (Js.truthy a && Js.truthy b && Js.truthy c && Js.truthy d); reflexivity.
Qed.

Lemma lazy_line_spec accountNumber skipped account lineCount line :
  lazy_line accountNumber skipped (account, lineCount) line
  = (if is_skipped line then account
     else if lineCount + 1 - skipped =? accountNumber
          then match account_of_line line accountNumber with
               | Some found => Some found
               | None => account
               end
          else account,
     lineCount + 1).
Proof.
  unfold lazy_line, account_of_line.
  destruct (is_skipped line); [reflexivity|].
  destruct (parts_of line) as [|a [|b [|c [|d [|e l]]]]];
    try (destruct (lineCount + 1 - skipped =? accountNumber); reflexivity).
  destruct (lineCount + 1 - skipped =? accountNumber); [|reflexivity].
  destruct (Js.truthy a && Js.truthy b && Js.truthy c && Js.truthy d); reflexivity.
Qed.

Lemma is_credential_spec line :
  is_credential line = true ->
  is_skipped line = false
  /\ exists a b c d, forall number,
       account_of_line line number
       = Some {| appKey := a; appSecret := b; accessToken := c; accessSecret := d;
                 a_accountNumber := number |}.
Proof.
  unfold is_credential, account_of_line.
  destruct (is_skipped line); [discriminate|]. simpl. intros H. split; [reflexivity|].
  destruct (parts_of line) as [|a [|b [|c [|d [|e l]]]]]; try discriminate.
  rewrite H. now exists a, b, c, d.
Qed.

Lemma find_account_snoc n accounts account :
  find_account n (accounts ++ [account])
  = match find_account n accounts with
    | Some found => Some found
    | None => if a_accountNumber account =? n then Some account else None
    end.
Proof.
  unfold find_account. induction accounts as [|a l IH]; simpl.
  - reflexivity.
  - destruct (a_accountNumber a =? n); [reflexivity | exact IH].
Qed.

Lemma find_account_beyond n accounts :
  Forall (fun a => a_accountNumber a < n) accounts ->
  find_account n accounts = None.
Proof.
  unfold find_account. induction 1 as [|a l Ha _ IH]; simpl; [reflexivity|].
  destruct (a_accountNumber a =? n) eqn:He; [apply Z.eqb_eq in He; lia | exact IH].
Qed.

Lemma lazy_follows_bulk n skipped (credentials : list string) :
  Forall (fun line => is_credential line = true) credentials ->
  forall accounts,
    Forall (fun a => a_accountNumber a <= Z.of_nat (List.length accounts)) accounts ->
    fst (fold_left (lazy_line n skipped) credentials
           (find_account n accounts, skipped + Z.of_nat (List.length accounts)))
    = find_account n
        (fst (fold_left read_line credentials
                (accounts, Z.of_nat (List.length accounts))))
    /\ List.length
         (fst (fold_left read_line credentials
                 (accounts, Z.of_nat (List.length accounts))))
       = (List.length accounts + List.length credentials)%nat.
Proof.
  induction 1 as [|line lines Hline _ IH]; intros accounts Hbound.
  - simpl. split; [reflexivity | lia].
  - cbn [fold_left].
    destruct (is_credential_spec line Hline) as (Hskip & a & b & c & d & Hacc).
    rewrite read_line_spec, lazy_line_spec, Hskip, !Hacc.
    set (len := Z.of_nat (List.length accounts)).
    set (account := {| appKey := a; appSecret := b; accessToken := c;
                       accessSecret := d; a_accountNumber := len + 1 |}).
    assert (Hlen : len + 1 = Z.of_nat (List.length (accounts ++ [account]))).
    { subst len. rewrite length_app. simpl. lia. }
    assert (Hbound' : Forall (fun x => a_accountNumber x
                                       <= Z.of_nat (List.length (accounts ++ [account])))
                        (accounts ++ [account])).
    { apply Forall_app. split.
      - eapply Forall_impl; [|exact Hbound]. simpl. intros x Hx. fold len in Hx. lia.
      - constructor; [|constructor]. simpl. lia. }
    destruct (IH (accounts ++ [account])%list Hbound') as [IHfind IHlen].
    replace (skipped + len + 1 - skipped) with (len + 1) by lia.
    assert (Hfound : (if len + 1 =? n
                      then Some {| appKey := a; appSecret := b; accessToken := c;
                                   accessSecret := d; a_accountNumber := n |}
                      else find_account n accounts)
                     = find_account n (accounts ++ [account])).
    { rewrite find_account_snoc. simpl a_accountNumber.
      destruct (len + 1 =? n) eqn:Hn.
      - apply Z.eqb_eq in Hn. rewrite find_account_beyond.
        + subst account. now rewrite Hn.
        + eapply Forall_impl; [|exact Hbound]. simpl. intros x Hx. fold len in Hx. lia.
      - now destruct (find_account n accounts). }
    rewrite Hfound.
    replace (skipped + len + 1) with
      (skipped + Z.of_nat (List.length (accounts ++ [account]))) by lia.
    rewrite Hlen, IHfind, IHlen, length_app. simpl List.length.
    split; [reflexivity | lia].
Qed.

(** X11.  When the blank and comment lines of the file all come before its
    other lines, and each of these gives an account, lazy loading finds
    for every number exactly the account that bulk loading gives that
    number, and none when bulk loading gives the number to no account. *)
Theorem lazy_agrees_when_comments_come_first fileContent comments credentials n :
  Js.split newline fileContent = (comments ++ credentials)%list ->
  Forall (fun line => is_skipped line = true) comments ->
  Forall (fun line => is_credential line = true) credentials ->
  lazy_account n fileContent = find_account n (accounts_of_content fileContent)
  /\ List.length (accounts_of_content fileContent) = List.length credentials.
Proof.
  intros Hsplit Hcomments Hcreds.
  unfold lazy_account, accounts_of_content. rewrite Hsplit, !fold_left_app.
  rewrite (fold_read_line_skipped comments _ Hcomments).
  rewrite (fold_lazy_line_skipped n _ comments Hcomments).
  assert (Hskipped : filter is_skipped (comments ++ credentials) = comments).
  { rewrite filter_app.
    replace (filter is_skipped credentials) with (@nil string).
    - rewrite app_nil_r. clear - Hcomments.
      induction Hcomments as [|x l Hx _ IH]; simpl; [reflexivity|].
      now rewrite Hx, IH.
    - clear - Hcreds. induction Hcreds as [|x l Hx _ IH]; simpl; [reflexivity|].
      destruct (is_credential_spec x Hx) as [-> _]. exact IH. }
  rewrite Hskipped.
  destruct (lazy_follows_bulk n (Z.of_nat (List.length comments)) credentials
              Hcreds [] (Forall_nil _)) as [Hfind Hlen].
  simpl in Hfind, Hlen.
  rewrite Z.add_0_r in Hfind. rewrite Z.add_0_l.
  split; [exact Hfind | exact Hlen].
Qed.

(** An instance: a comment, then two lines of credentials. *)
Lemma lazy_agrees_when_comments_come_first_witness :
  let content := "# accounts" ++ String newline "k1,s1,t1,a1"
                 ++ String newline "k2,s2,t2,a2" in
  lazy_account 2 content = find_account 2 (accounts_of_content content)
  /\ List.length (accounts_of_content content) = 2%nat.
Proof.
  intros content.
  apply (lazy_agrees_when_comments_come_first content
           ["# accounts"] ["k1,s1,t1,a1"; "k2,s2,t2,a2"] 2).
  - reflexivity.
  - repeat constructor.
  - repeat constructor.
Defined.

(** ** Lazy loading: memoization, and the handles of startup *)

Lemma account_of_line_number line number account :
  account_of_line line number = Some account -> a_accountNumber account = number.
Proof.
  unfold account_of_line.
  destruct (parts_of line) as [|a [|b [|c [|d [|e l]]]]]; try discriminate.
  destruct (Js.truthy a && Js.truthy b && Js.truthy c && Js.truthy d);
    [|discriminate].
  intros H. inversion H. reflexivity.
Qed.

Lemma lazy_account_number n fileContent account :
  lazy_account n fileContent = Some account -> a_accountNumber account = n.
Proof.
  unfold lazy_account.
  set (skipped := Z.of_nat _).
  assert (Hgen : forall lines state,
             (forall a, fst state = Some a -> a_accountNumber a = n) ->
             forall a, fst (fold_left (lazy_line n skipped) lines state) = Some a ->
                       a_accountNumber a = n).
  { induction lines as [|line lines IH]; intros [acc lc] Hinv; [exact Hinv|].
    cbn [fold_left]. rewrite lazy_line_spec. apply IH. simpl.
    destruct (is_skipped line); [exact Hinv|].
    destruct (lc + 1 - skipped =? n); [|exact Hinv].
    destruct (account_of_line line n) as [found|] eqn:Hf; [|exact Hinv].
    intros a Ha. inversion Ha; subst. eapply account_of_line_number; eauto. }
  apply Hgen. simpl. discriminate.
Qed.

(** X12.  Lazy loading memoizes.  When it returns a handle, the handle has the
    number asked for; it was either in the pool already, and then
    nothing changes, or it is a new object put at the end of the pool;
    asking again returns the same handle and changes nothing.  When it
    returns nothing, the pool and the world are as before.  No file is
    ever written. *)
Theorem lazy_load_is_memoized n pool w :
  match lazyLoadTwitterClient n pool w with
  | (Some c, pool', w') =>
      c_accountNumber c = n
      /\ (pool' = pool /\ w' = w /\ In c pool
          \/ pool' = (pool ++ [c])%list /\ find_client n pool = None
             /\ obj_id c = next_obj_id w /\ next_obj_id w' = S (next_obj_id w))
      /\ lazyLoadTwitterClient n pool' w' = (Some c, pool', w')
      /\ accounts_txt w' = accounts_txt w
      /\ failed_tweets_json w' = failed_tweets_json w
      /\ tweet_history_json w' = tweet_history_json w
  | (None, pool', w') => pool' = pool /\ w' = w
  end.
Proof.
  unfold lazyLoadTwitterClient.
  destruct (find_client n pool) as [existing|] eqn:Hfind.
  - unfold find_client in Hfind. pose proof (find_some _ _ Hfind) as [Hin Hnum].
    apply Z.eqb_eq in Hnum.
    split; [exact Hnum|]. split; [left; auto|].
    fold (find_client n pool) in Hfind. rewrite Hfind. auto.
  - destruct (accounts_txt w) as [fileContent|] eqn:Hfile; [|auto].
    destruct (lazy_account n fileContent) as [account|] eqn:Hlazy; [|auto].
    pose proof (lazy_account_number _ _ _ Hlazy) as Hnum.
    cbn [c_accountNumber obj_id].
    split; [exact Hnum|]. split; [right; auto|]. split; [|auto].
    assert (Hnow : find_client n
                     (pool ++ [{| obj_id := next_obj_id w;
                                  client := new_TwitterApi w account;
                                  c_accountNumber := a_accountNumber account |}])
                   = Some {| obj_id := next_obj_id w;
                             client := new_TwitterApi w account;
                             c_accountNumber := a_accountNumber account |}).
    { unfold find_client in *. clear - Hfind Hnum.
      induction pool as [|c l IH]; simpl in *.
      - rewrite Hnum, Z.eqb_refl. reflexivity.
      - destruct (c_accountNumber c =? n); [discriminate | now apply IH]. }
    now rewrite Hnow.
Qed.

Lemma bulk_numbering fileContent :
  map a_accountNumber (accounts_of_content fileContent)
  = map Z.of_nat (seq 1 (List.length (accounts_of_content fileContent))).
Proof.
  unfold accounts_of_content.
  destruct (fold_read_line (Js.split newline fileContent) [])
    as (news & Hfold & Hnum & _).
  simpl in Hfold. rewrite Hfold. simpl. exact Hnum.
Qed.

Lemma new_clients_spec (accounts : list Account) :
  forall w,
    map c_accountNumber (fst (new_clients accounts w)) = map a_accountNumber accounts
    /\ map obj_id (fst (new_clients accounts w))
       = seq (next_obj_id w) (List.length accounts)
    /\ next_obj_id (snd (new_clients accounts w))
       = (next_obj_id w + List.length accounts)%nat.
Proof.
  induction accounts as [|account rest IH]; intros w; simpl.
  - repeat split. lia.
  - destruct (IH (set_next_obj_id (S (next_obj_id w)) w)) as (Hn & Hid & Hnext).
    destruct (new_clients rest (set_next_obj_id (S (next_obj_id w)) w)) as [others w1].
    simpl in *. rewrite Hn, Hid, Hnext. repeat split. lia.
Qed.

(** X13.  Startup.  The handles made from the accounts of the file are distinct
    objects, one per account and in the same order, numbered 1, 2, 3, ...;
    the handle of account [k] is the [k]-th of them, and a number that
    bulk loading gave to no account has no handle. *)
Theorem startup_handles_follow_the_file w :
  let accounts := fst (readAccountsFromFile w) in
  let clients :=
    fst (initializeTwitterClients accounts (snd (readAccountsFromFile w))) in
  map c_accountNumber clients = map Z.of_nat (seq 1 (List.length accounts))
  /\ List.length clients = List.length accounts
  /\ NoDup (map obj_id clients)
  /\ forall k, find_client k clients
               = if (1 <=? k) && (k <=? Z.of_nat (List.length clients))
                 then nth_error clients (Z.to_nat k - 1)
                 else None.
Proof.
  intros accounts clients.
  assert (Hnum : map a_accountNumber accounts
                 = map Z.of_nat (seq 1 (List.length accounts))).
  { subst accounts. unfold readAccountsFromFile.
    destruct (accounts_txt w) as [fileContent|]; [|reflexivity].
    apply bulk_numbering. }
  assert (Hspec : map c_accountNumber clients = map a_accountNumber accounts
                  /\ exists start, map obj_id clients
                                   = seq start (List.length accounts)).
  { subst clients. unfold initializeTwitterClients.
    destruct accounts as [|a0 rest] eqn:Ha; [simpl; split; [reflexivity | now exists 0%nat]|].
    destruct (new_clients_spec (a0 :: rest) (snd (readAccountsFromFile w)))
      as (Hn & Hid & _).
    split; [exact Hn | eauto]. }
  destruct Hspec as (Hcn & start & Hids).
  assert (Hlen : List.length clients = List.length accounts).
  { rewrite <- (length_map c_accountNumber clients), Hcn. apply length_map. }
  rewrite Hcn, Hnum. split; [reflexivity|]. split; [exact Hlen|]. split.
  { rewrite Hids. apply seq_NoDup. }
  rewrite Hnum, <- Hlen in Hcn. clear - Hcn.
  assert (Hgen : forall (l : list ClientObj) (base : nat),
             map c_accountNumber l = map Z.of_nat (seq (S base) (List.length l)) ->
             forall k, find_client k l
                       = if (Z.of_nat (S base) <=? k)
                            && (k <=? Z.of_nat (base + List.length l))
                         then nth_error l (Z.to_nat k - S base)
                         else None).
  { induction l as [|c l IH]; intros base Hmap k.
    - unfold find_client. cbn [find List.length]. rewrite Nat.add_0_r.
      destruct (Z.of_nat (S base) <=? k) eqn:H1; [|reflexivity].
      destruct (k <=? Z.of_nat base) eqn:H2; [|reflexivity].
      apply Z.leb_le in H1, H2. lia.
    - cbn [map seq List.length] in Hmap.
      assert (Hc : c_accountNumber c = Z.of_nat (S base))
        by exact (f_equal (hd 0) Hmap).
      assert (Hrest : map c_accountNumber l
                      = map Z.of_nat (seq (S (S base)) (List.length l)))
        by exact (f_equal (@tl Z) Hmap).
      unfold find_client. cbn [find]. rewrite Hc.
      fold (find_client k l).
      destruct (Z.of_nat (S base) =? k) eqn:Hk.
      + apply Z.eqb_eq in Hk. subst k.
        rewrite Z.leb_refl. cbn [andb].
        replace (Z.of_nat (S base) <=? Z.of_nat (base + List.length (c :: l)))
          with true by (symmetry; apply Z.leb_le; cbn [List.length]; lia).
        rewrite Nat2Z.id, Nat.sub_diag. reflexivity.
      + apply Z.eqb_neq in Hk. rewrite (IH (S base) Hrest k).
        cbn [List.length].
        replace (S base + List.length l)%nat with (base + S (List.length l))%nat by lia.
        destruct (Z.of_nat (S (S base)) <=? k) eqn:H1;
          destruct (Z.of_nat (S base) <=? k) eqn:H0;
          try (apply Z.leb_le in H1); try (apply Z.leb_le in H0);
          try (apply Z.leb_gt in H1); try (apply Z.leb_gt in H0);
          try lia; cbn [andb]; try reflexivity.
        destruct (k <=? Z.of_nat (base + S (List.length l))); [|reflexivity].
        replace (Z.to_nat k - S base)%nat with (S (Z.to_nat k - S (S base))) by lia.
        reflexivity. }
  intros k. rewrite (Hgen clients 0%nat Hcn k). simpl Nat.add.
  replace (Z.of_nat 1) with 1 by reflexivity.
  now rewrite Nat.sub_1_r, <- Nat.sub_1_r.
Qed.

(** ** The retry sweep: grouping *)

Lemma group_push_keys tweet (groups : list (Z * list FailedTweet)) :
  forall k, In k (map fst (group_push tweet groups))
            <-> k = f_accountNumber tweet \/ In k (map fst groups).
Proof.
  induction groups as [|[k0 tweets] rest IH]; intros k; simpl.
  - intuition congruence.
  - destruct (k0 =? f_accountNumber tweet) eqn:Hk0.
    + apply Z.eqb_eq in Hk0. simpl. intuition congruence.
    + destruct (enumerated_before (f_accountNumber tweet) k0
                && negb (existsb (fun g => fst g =? f_accountNumber tweet) rest)).
      * simpl. intuition congruence.
      * simpl. rewrite IH. intuition congruence.
Qed.

Lemma existsb_key k (groups : list (Z * list FailedTweet)) :
  existsb (fun g => fst g =? k) groups = false -> ~ In k (map fst groups).
Proof.
  induction groups as [|[k0 tweets] rest IH]; simpl; [tauto|].
  intros H. apply orb_false_iff in H as [H0 Hrest].
  apply Z.eqb_neq in H0. intros [Heq | Hin]; [congruence | now apply IH].
Qed.

Lemma group_push_NoDup tweet (groups : list (Z * list FailedTweet)) :
  NoDup (map fst groups) -> NoDup (map fst (group_push tweet groups)).
Proof.
  induction groups as [|[k0 tweets] rest IH]; intros Hnd; simpl.
  - constructor; [tauto | constructor].
  - inversion Hnd as [|? ? Hnotin Hnd']; subst.
    destruct (k0 =? f_accountNumber tweet) eqn:Hk0; [exact Hnd|].
    apply Z.eqb_neq in Hk0.
    destruct (enumerated_before (f_accountNumber tweet) k0
              && negb (existsb (fun g => fst g =? f_accountNumber tweet) rest)) eqn:Hins.
    + apply andb_true_iff in Hins as [_ Hex]. apply negb_true_iff in Hex.
      apply existsb_key in Hex.
      simpl. constructor; [|exact Hnd].
      simpl. intros [Heq | Hin]; [congruence | contradiction].
    + simpl. constructor; [|now apply IH].
      rewrite group_push_keys. intros [Heq | Hin]; [congruence | contradiction].
Qed.

Lemma group_push_members tweet (groups : list (Z * list FailedTweet)) :
  NoDup (map fst groups) ->
  forall k tweets,
    In (k, tweets) (group_push tweet groups) ->
    (k = f_accountNumber tweet
     /\ ((exists earlier, In (k, earlier) groups /\ tweets = (earlier ++ [tweet])%list)
         \/ (~ In k (map fst groups) /\ tweets = [tweet])))
    \/ (k <> f_accountNumber tweet /\ In (k, tweets) groups).
Proof.
  induction groups as [|[k0 tweets0] rest IH]; intros Hnd k tweets Hin; simpl in Hin.
  - destruct Hin as [Heq | []]. inversion Heq; subst. left. split; [reflexivity|].
    right. split; [tauto | reflexivity].
  - inversion Hnd as [|? ? Hnotin Hnd']; subst.
    destruct (k0 =? f_accountNumber tweet) eqn:Hk0.
    + apply Z.eqb_eq in Hk0. destruct Hin as [Heq | Hin].
      * inversion Heq; subst. left. split; [reflexivity|]. left.
        exists tweets0. split; [now left | reflexivity].
      * right. split; [|now right].
        intros ->. apply Hnotin. rewrite Hk0.
        change (f_accountNumber tweet) with (fst (f_accountNumber tweet, tweets)).
        now apply in_map.
    + apply Z.eqb_neq in Hk0.
      destruct (enumerated_before (f_accountNumber tweet) k0
                && negb (existsb (fun g => fst g =? f_accountNumber tweet) rest)) eqn:Hins.
      * apply andb_true_iff in Hins as [_ Hex]. apply negb_true_iff in Hex.
        apply existsb_key in Hex.
        destruct Hin as [Heq | Hin].
        -- inversion Heq; subst. left. split; [reflexivity|]. right.
           split; [|reflexivity]. simpl. intros [H | H]; [congruence | contradiction].
        -- right. split; [|exact Hin].
           intros ->. destruct Hin as [Heq | Hin].
           ++ inversion Heq. congruence.
           ++ apply Hex.
              change (f_accountNumber tweet) with (fst (f_accountNumber tweet, tweets)).
              now apply in_map.
      * destruct Hin as [Heq | Hin].
        -- inversion Heq; subst. right. split; [congruence | now left].
        -- destruct (IH Hnd' k tweets Hin) as [[Hk [[earlier [He Ht]] | [Hno Ht]]] | [Hk Hold]].
           ++ left. split; [exact Hk|]. left. exists earlier. split; [now right | exact Ht].
           ++ left. split; [exact Hk|]. right. split; [|exact Ht].
              simpl. intros [H | H]; [congruence | contradiction].
           ++ right. split; [exact Hk | now right].
Qed.

Lemma tweetsByAccount_snoc failedTweets tweet :
  tweetsByAccount (failedTweets ++ [tweet])
  = group_push tweet (tweetsByAccount failedTweets).
Proof.
  unfold tweetsByAccount. now rewrite fold_left_app.
Qed.

Lemma tweetsByAccount_invariant failedTweets :
  NoDup (map fst (tweetsByAccount failedTweets))
  /\ (forall k tweets,
         In (k, tweets) (tweetsByAccount failedTweets) ->
         tweets <> []
         /\ tweets = filter (fun t => f_accountNumber t =? k) failedTweets)
  /\ (forall t, In t failedTweets ->
                In (f_accountNumber t) (map fst (tweetsByAccount failedTweets))).
Proof.
  induction failedTweets as [|tweet l IH] using rev_ind.
  - simpl. split; [constructor|]. split; [intros ? ? [] | intros ? []].
  - destruct IH as (Hnd & Hgroups & Hcover).
    rewrite tweetsByAccount_snoc. split; [now apply group_push_NoDup|]. split.
    + intros k tweets Hin. rewrite filter_app. simpl.
      destruct (group_push_members tweet _ Hnd k tweets Hin)
        as [[Hk [[earlier [He Ht]] | [Hno Ht]]] | [Hk Hold]].
      * destruct (Hgroups k earlier He) as [_ Hfilter].
        subst k. rewrite Z.eqb_refl, Ht, Hfilter.
        split; [|reflexivity]. now destruct (filter _ l).
      * subst k. rewrite Z.eqb_refl, Ht. split; [discriminate|].
        replace (filter (fun t => f_accountNumber t =? f_accountNumber tweet) l)
          with (@nil FailedTweet); [reflexivity|].
        symmetry.
        destruct (filter (fun t => f_accountNumber t =? f_accountNumber tweet) l)
          as [|x xs] eqn:Hf; [reflexivity|].
        exfalso. apply Hno.
        assert (Hx : In x (filter (fun t => f_accountNumber t =? f_accountNumber tweet) l))
          by (rewrite Hf; now left).
        apply filter_In in Hx as [Hxl Hxk]. apply Z.eqb_eq in Hxk.
        rewrite <- Hxk. now apply Hcover.
      * destruct (Hgroups k tweets Hold) as [Hne Hfilter].
        split; [exact Hne|].
        destruct (f_accountNumber tweet =? k) eqn:He;
          [apply Z.eqb_eq in He; congruence|].
        now rewrite app_nil_r.
    + intros t Hin. rewrite group_push_keys.
      apply in_app_or in Hin as [Hin | [<- | []]]; [right; now apply Hcover | now left].
Qed.

(** X14.  The sweep groups the queue by account: no account has two groups,
    no group is empty, every queued post is in the group of its account,
    and a group holds the posts of its account in the order of the
    queue. *)
Theorem tweetsByAccount_partitions failedTweets :
  NoDup (map fst (tweetsByAccount failedTweets))
  /\ (forall k tweets,
         In (k, tweets) (tweetsByAccount failedTweets) ->
         tweets <> []
         /\ tweets = filter (fun t => f_accountNumber t =? k) failedTweets)
  /\ (forall t, In t failedTweets ->
                exists tweets,
                  In (f_accountNumber t, tweets) (tweetsByAccount failedTweets)
                  /\ In t tweets).
Proof.
  destruct (tweetsByAccount_invariant failedTweets) as (Hnd & Hgroups & Hcover).
  split; [exact Hnd|]. split; [exact Hgroups|].
  intros t Hin. specialize (Hcover t Hin).
  apply in_map_iff in Hcover as [[k tweets] [Hk Hg]]. simpl in Hk. subst k.
  exists tweets. split; [exact Hg|].
  destruct (Hgroups _ _ Hg) as [_ ->].
  apply filter_In. split; [exact Hin | apply Z.eqb_refl].
Qed.

(** ** The retry sweep: accounts that cannot be resolved, simulation mode *)












(** ** The retry sweep: how many transport calls *)

Lemma calls_within_same n w w' :
  tweet_calls w' = tweet_calls w -> calls_within n w w'.
Proof.
  intros H. exists []. rewrite app_nil_r. split; [exact H | simpl; lia].
Qed.

Lemma calls_within_trans n m w w1 w2 :
  calls_within n w w1 -> calls_within m w1 w2 -> calls_within (n + m) w w2.
Proof.
  intros (c1 & H1 & L1) (c2 & H2 & L2). exists (c1 ++ c2)%list.
  rewrite H2, H1, <- app_assoc, length_app. split; [reflexivity | lia].
Qed.

Lemma calls_within_le n m w w' :
  (n <= m)%nat -> calls_within n w w' -> calls_within m w w'.
Proof.
  intros Hle (c & H & L). exists c. split; [exact H | lia].
Qed.

Lemma attempt_calls obj config tweetText w :
  calls_within 2 w (snd (postTweetWithClient tweetText obj config 1 w)).
Proof.
  destruct (chain_bounded obj config tweetText 1 w ltac:(lia))
    as (waits & calls & _ & Hcalls & _ & Hwaits & Hlen).
  exists calls. split; [exact Hcalls | lia].
Qed.

Lemma lazy_load_calls accountNumber twitterClients w :
  tweet_calls (snd (lazyLoadTwitterClient accountNumber twitterClients w))
  = tweet_calls w.
Proof.
  unfold lazyLoadTwitterClient.
  destruct (find_client accountNumber twitterClients); [reflexivity|].
  destruct (accounts_txt w) as [fileContent|]; [|reflexivity].
  destruct (lazy_account accountNumber fileContent); reflexivity.
Qed.

Lemma replay_calls k clientObj config tweet s :
  calls_within 2 (sw_world s) (sw_world (snd (replay k clientObj config tweet s))).
Proof.
  unfold replay. destruct clientObj as [c|].
  - pose proof (attempt_calls c config (f_text tweet) (sw_world s)) as Hc.
    destruct (postTweetWithClient (f_text tweet) c config 1 (sw_world s))
      as [[r|e] w2]; [|exact Hc].
    destruct (success r); exact Hc.
  - pose proof (lazy_load_calls k (sw_twitterClients s) (sw_world s)) as Hl.
    destruct (lazyLoadTwitterClient k (sw_twitterClients s) (sw_world s))
      as [[[c|] twitterClients] w1]; cbn [snd] in Hl.
    + pose proof (attempt_calls c config (f_text tweet) w1) as Hc.
      destruct (postTweetWithClient (f_text tweet) c config 1 w1) as [[r|e] w2];
        cbn [snd] in Hc.
      * apply (calls_within_trans 0 2 _ w1); [now apply calls_within_same|].
        destruct (success r); exact Hc.
      * apply (calls_within_trans 0 2 _ w1); [now apply calls_within_same | exact Hc].
    + now apply calls_within_same.
Qed.

Lemma replay_all_calls k clientObj config tweets :
  forall s,
    calls_within (2 * List.length tweets) (sw_world s)
      (sw_world (snd (replay_all k clientObj config tweets s))).
Proof.
  induction tweets as [|tweet rest IH]; intros s.
  - now apply calls_within_same.
  - cbn [replay_all].
    pose proof (replay_calls k clientObj config tweet s) as Hc.
    destruct (replay k clientObj config tweet s) as [[u|e] s1]; cbn [snd] in Hc.
    + apply (calls_within_le (2 + 2 * List.length rest)); [simpl; lia|].
      apply (calls_within_trans _ _ _ (sw_world s1)); [exact Hc | apply IH].
    + apply (calls_within_le 2); [simpl; lia | exact Hc].
Qed.

Lemma sweep_groups_calls config groups :
  forall s,
    calls_within (2 * List.length (List.concat (map snd groups))) (sw_world s)
      (sw_world (snd (sweep_groups config groups s))).
Proof.
  induction groups as [|[k tweets] rest IH]; intros s.
  - now apply calls_within_same.
  - cbn [sweep_groups map snd List.concat]. rewrite length_app.
    assert (Hthen : forall clientObj s1,
               tweet_calls (sw_world s1) = tweet_calls (sw_world s) ->
               calls_within
                 (2 * (List.length tweets + List.length (List.concat (map snd rest))))
                 (sw_world s)
                 (sw_world
                    (snd (match replay_all k clientObj config tweets s1 with
                          | (Thrown e, s2) => (Thrown e, s2)
                          | (Returned _, s2) => sweep_groups config rest s2
                          end)))).
    { intros clientObj s1 Hs1.
      pose proof (replay_all_calls k clientObj config tweets s1) as Hc.
      destruct (replay_all k clientObj config tweets s1) as [[u|e] s2]; cbn [snd] in Hc.
      - apply (calls_within_le
                 (0 + (2 * List.length tweets
                       + 2 * List.length (List.concat (map snd rest))))); [lia|].
        apply (calls_within_trans _ _ _ (sw_world s1)); [now apply calls_within_same|].
        apply (calls_within_trans _ _ _ (sw_world s2)); [exact Hc | apply IH].
      - apply (calls_within_le (0 + 2 * List.length tweets)); [lia|].
        apply (calls_within_trans _ _ _ (sw_world s1));
          [now apply calls_within_same | exact Hc]. }
    destruct (find_client k (sw_twitterClients s)) as [c|].
    + now apply Hthen.
    + pose proof (lazy_load_calls k (sw_twitterClients s) (sw_world s)) as Hl.
      destruct (lazyLoadTwitterClient k (sw_twitterClients s) (sw_world s))
        as [[[c|] twitterClients] w1]; cbn [snd] in Hl.
      * now apply Hthen.
      * apply (calls_within_le
                 (0 + 2 * List.length (List.concat (map snd rest)))); [lia|].
        apply (calls_within_trans _ _ _ w1); [now apply calls_within_same|].
        apply (IH {| sw_failedTweets := sw_failedTweets s;
                     sw_twitterClients := twitterClients; sw_world := w1 |}).
Qed.

Lemma group_push_size tweet (groups : list (Z * list FailedTweet)) :
  List.length (List.concat (map snd (group_push tweet groups)))
  = S (List.length (List.concat (map snd groups))).
Proof.
  induction groups as [|[k tweets] rest IH]; [reflexivity|].
  cbn [group_push].
  destruct (k =? f_accountNumber tweet).
  - cbn [map snd List.concat]. rewrite !length_app. simpl. lia.
  - destruct (enumerated_before (f_accountNumber tweet) k
              && negb (existsb (fun g => fst g =? f_accountNumber tweet) rest)).
    + reflexivity.
    + cbn [map snd List.concat]. rewrite !length_app, IH. lia.
Qed.

Lemma tweetsByAccount_size failedTweets :
  List.length (List.concat (map snd (tweetsByAccount failedTweets)))
  = List.length failedTweets.
Proof.
  induction failedTweets as [|tweet l IH] using rev_ind; [reflexivity|].
  rewrite tweetsByAccount_snoc, group_push_size, IH, length_app. simpl. lia.
Qed.

(** X17.  Whatever the transport does, a sweep makes at most two transport
    calls for each post that was queued when it started (a replay has a
    budget of one retry), and the log of the calls made before is kept. *)
Theorem sweep_calls_at_most_twice_per_entry twitterClients config w :
  exists calls,
    tweet_calls (snd (retryFailedTweets twitterClients config w))
    = (tweet_calls w ++ calls)%list
    /\ (List.length calls <= 2 * List.length (queue w))%nat.
Proof.
  change (calls_within (2 * List.length (queue w)) w
            (snd (retryFailedTweets twitterClients config w))).
  unfold retryFailedTweets, queue.
  destruct (failed_tweets_json w) as [[|t0 l]|];
    [now apply calls_within_same | | now apply calls_within_same].
  set (failedTweets := t0 :: l).
  pose proof (sweep_groups_calls config (tweetsByAccount failedTweets)
                {| sw_failedTweets := failedTweets;
                   sw_twitterClients := twitterClients; sw_world := w |}) as Hc.
  rewrite tweetsByAccount_size in Hc.
  destruct (sweep_groups config (tweetsByAccount failedTweets) _) as [[u|e] s];
    exact Hc.
Qed.

(** ** Template feedback: the range of a score *)

Lemma successRate_bounds tweet :
  t_accounts tweet <> [] ->
  exists q, successRate tweet = Num q /\ (0 <= q)%Q /\ (q <= 1)%Q.
Proof.
  intros Hne. unfold successRate.
  pose proof (filter_length_le h_success (t_accounts tweet)) as Hle.
  destruct (t_accounts tweet) as [|a l] eqn:Hacc; [congruence|].
  cbn [List.length] in *. eexists. split; [reflexivity|].
  assert (Hden : Z.pos (Pos.of_nat (S (List.length l))) = Z.of_nat (S (List.length l)))
    by (rewrite <- positive_nat_Z, Nat2Pos.id; [reflexivity | discriminate]).
  unfold Qle. cbn [Qnum Qden]. rewrite Hden. split; lia.
Qed.

Lemma successRate_NaN tweet :
  t_accounts tweet = [] -> successRate tweet = NaN.
Proof.
  intros H. unfold successRate. now rewrite H.
Qed.

Lemma inject_succ (n : nat) :
  inject_Z (Z.of_nat (S n)) = (inject_Z (Z.of_nat n) + 1)%Q.
Proof.
  rewrite Nat2Z.inj_succ, <- Z.add_1_r. apply inject_Z_plus.
Qed.

Lemma fold_rates (l : list TweetRecord) :
  scorable l ->
  forall a, exists q,
    fold_left score_add (map successRate l) (Num a) = Num q
    /\ (a <= q)%Q /\ (q <= a + inject_Z (Z.of_nat (List.length l)))%Q.
Proof.
  induction 1 as [|tweet l Htweet _ IH]; intros a.
  - exists a. split; [reflexivity|]. cbn [List.length].
    change (inject_Z (Z.of_nat 0)) with 0%Q. split; lra.
  - destruct (successRate_bounds tweet Htweet) as (r & Hr & Hr0 & Hr1).
    cbn [map fold_left List.length]. rewrite Hr. cbn [score_add].
    destruct (IH (a + r)%Q) as (q & Hq & Hlow & Hhigh).
    exists q. split; [exact Hq|]. rewrite inject_succ. split; lra.
Qed.

Lemma fold_score_add_NaN (l : list Score) : fold_left score_add l NaN = NaN.
Proof.
  induction l as [|s l IH]; [reflexivity | exact IH].
Qed.

Lemma fold_rates_NaN (l : list TweetRecord) :
  Exists (fun tweet => t_accounts tweet = []) l ->
  forall s, fold_left score_add (map successRate l) s = NaN.
Proof.
  induction 1 as [tweet l Htweet | tweet l _ IH]; intros s; cbn [map fold_left].
  - rewrite (successRate_NaN tweet Htweet).
    replace (score_add s NaN) with NaN by (now destruct s).
    apply fold_score_add_NaN.
  - apply IH.
Qed.

Lemma scorable_or_not (l : list TweetRecord) :
  scorable l \/ Exists (fun tweet => t_accounts tweet = []) l.
Proof.
  induction l as [|tweet l [IH | IH]].
  - left. constructor.
  - destruct (t_accounts tweet) as [|a accounts] eqn:Hacc.
    + right. now left.
    + left. constructor; [congruence | exact IH].
  - right. now right.
Qed.

Lemma template_score_cases template history :
  (scorable (matching_entries template history)
   /\ exists q, template_score template history = Num q /\ (0 <= q)%Q /\ (q <= 1)%Q)
  \/ (Exists (fun tweet => t_accounts tweet = []) (matching_entries template history)
      /\ template_score template history = NaN).
Proof.
  unfold template_score, matching_entries.
  rewrite fold_score_tweet. cbn [Nat.add].
  set (matching := filter (used_template template) (Js.slice_last 20 history)).
  destruct (scorable_or_not matching) as [Hall | Hsome].
  - left. split; [exact Hall|].
    destruct (fold_rates matching Hall 0%Q) as (q & -> & Hlow & Hhigh).
    destruct (List.length matching) as [|n] eqn:Hlen.
    + exists (5 # 10)%Q. split; [reflexivity|]. split; discriminate.
    + cbn [score_div]. eexists. split; [reflexivity|].
      assert (Hpos : (0 < inject_Z (Z.of_nat (S n)))%Q).
      { rewrite inject_succ.
        assert ((0 <= inject_Z (Z.of_nat n))%Q)
          by (unfold Qle; cbn [Qnum Qden inject_Z]; lia).
        lra. }
      split.
      * apply Qle_shift_div_l; [exact Hpos | lra].
      * apply Qle_shift_div_r; [exact Hpos | lra].
  - right. split; [exact Hsome|].
    rewrite (fold_rates_NaN matching Hsome).
    destruct (List.length matching) as [|n] eqn:Hlen; [|reflexivity].
    apply length_zero_iff_nil in Hlen. rewrite Hlen in Hsome. inversion Hsome.
Qed.

(** X18.  The score of a template is a number between 0 and 1 when every
    entry that counts for it has a line for at least one account, and
    [NaN] when one of them has none (its ratio is 0/0, which the sum
    keeps). *)
Theorem template_score_range template history :
  match template_score template history with
  | Num q =>
      scorable (matching_entries template history) /\ (0 <= q)%Q /\ (q <= 1)%Q
  | NaN =>
      Exists (fun tweet => t_accounts tweet = []) (matching_entries template history)
  end.
Proof.
  destruct (template_score_cases template history)
    as [(Hall & q & -> & Hq) | (Hsome & ->)]; [|exact Hsome].
  split; [exact Hall | exact Hq].
Qed.

Lemma dispatch_loop_history tweetText final config :
  forall remaining results w,
    tweet_history_json (snd (dispatch_loop tweetText remaining final config results w))
    = tweet_history_json w.
Proof.
  induction remaining as [|clientObj rest IH]; intros results w; [reflexivity|].
  cbn [dispatch_loop].
  match goal with
  | |- context [postTweetWithClient ?t ?o ?c ?b ?w0] =>
      pose proof (proj1 (attempt_frame o c t b w0)) as Hframe;
      destruct (postTweetWithClient t o c b w0) as [[result|e] w1]
  end; cbn [snd] in Hframe; [|exact Hframe].
  rewrite IH. destruct (not_final final clientObj); exact Hframe.
Qed.

Lemma account_records_length results w :
  List.length (fst (account_records results w)) = List.length results.
Proof.
  rewrite <- (length_map h_accountNumber), (proj1 (account_records_fields results w)).
  apply length_map.
Qed.

Lemma scorable_skipn n (l : list TweetRecord) : scorable l -> scorable (skipn n l).
Proof.
  intros H. rewrite <- (firstn_skipn n l) in H. now apply Forall_app in H.
Qed.

Lemma scorable_matching template history :
  scorable history -> scorable (matching_entries template history).
Proof.
  intros H. unfold matching_entries, Js.slice_last, scorable.
  apply Forall_forall. intros tweet Hin. apply filter_In in Hin as [Hin _].
  apply (scorable_skipn (List.length history - 20)) in H.
  exact (proj1 (Forall_forall _ _) H tweet Hin).
Qed.

(** X19.  A dispatch keeps the history fit for scoring: when every record of
    the history has a line for at least one account, so has every record
    after [postTweetToAllAccounts], however it ends (without accounts it
    writes nothing), and the score of every template over the new history
    is a number between 0 and 1. *)
Theorem dispatch_keeps_scores_in_range tweetText clients config w :
  scorable (getTweetHistory w) ->
  scorable (getTweetHistory (snd (postTweetToAllAccounts tweetText clients config w)))
  /\ forall template,
       exists q,
         template_score template
           (getTweetHistory (snd (postTweetToAllAccounts tweetText clients config w)))
         = Num q
         /\ (0 <= q)%Q /\ (q <= 1)%Q.
Proof.
  intros Hbefore.
  assert (Hafter : scorable (getTweetHistory
                               (snd (postTweetToAllAccounts tweetText clients config w)))).
  { unfold postTweetToAllAccounts. destruct clients as [|c0 rest]; [exact Hbefore|].
    set (final := nth_error (c0 :: rest) (List.length (c0 :: rest) - 1)).
    pose proof (dispatch_loop_history tweetText final config (c0 :: rest) [] w) as Hh.
    destruct (dispatch_loop tweetText (c0 :: rest) final config [] w)
      as [[results|e] w1] eqn:Hloop; cbn [snd] in Hh.
    - apply dispatch_loop_accounts in Hloop.
      apply (f_equal (@List.length Z)) in Hloop.
      rewrite length_app, !length_map in Hloop. cbn [List.length Nat.add] in Hloop.
      unfold saveTweetHistory.
      destruct (Date_now w1) as [now w2].
      pose proof (account_records_length results w2) as Hlen.
      destruct (account_records results w2) as [accounts w3]. cbn [fst] in Hlen.
      cbn [snd]. unfold getTweetHistory at 1. cbn [tweet_history_json set_tweet_history_json].
      assert (Hall : scorable (getTweetHistory w1
                               ++ [{| t_timestamp := now; t_text := tweetText;
                                      t_accounts := accounts |}])%list).
      { apply Forall_app. split.
        - unfold getTweetHistory. rewrite Hh. exact Hbefore.
        - constructor; [|constructor]. cbn [t_accounts].
          intros ->. simpl in Hlen. lia. }
      destruct (100 <? _)%nat; [now apply scorable_skipn | exact Hall].
    - cbn [snd]. unfold getTweetHistory. rewrite Hh. exact Hbefore. }
  split; [exact Hafter|].
  intros template.
  destruct (template_score_cases template
              (getTweetHistory (snd (postTweetToAllAccounts tweetText clients config w))))
    as [(_ & Hq) | (Hsome & _)]; [exact Hq|].
  exfalso. apply (scorable_matching template) in Hafter.
  apply Exists_exists in Hsome as (tweet & Hin & Hnone).
  exact (proj1 (Forall_forall _ _) Hafter tweet Hin Hnone).
Qed.

(** An instance: the first dispatch, to one account, with no history
    yet. *)
Lemma dispatch_keeps_scores_in_range_witness :
  let clients := [handle 1 (always (provider_error 403 "Forbidden"))] in
  scorable (getTweetHistory (snd (postTweetToAllAccounts "hello" clients plain_config world0)))
  /\ forall template,
       exists q,
         template_score template
           (getTweetHistory (snd (postTweetToAllAccounts "hello" clients plain_config world0)))
         = Num q
         /\ (0 <= q)%Q /\ (q <= 1)%Q.
Proof.
  intros clients.
  apply (dispatch_keeps_scores_in_range "hello" clients plain_config world0).
  constructor.
Defined.

(** ** Tweet generation *)

Lemma en_class_is_not_underscore (u : Z) : Ai.en_class u = negb (u =? 95).
Proof.
  unfold Ai.en_class, Ai.is_word.
  destruct (u =? 95) eqn:Hu.
  - apply Z.eqb_eq in Hu. subst u. reflexivity.
  - destruct (Ai.in_range 65 90 u), (Ai.in_range 97 122 u), (Ai.in_range 48 57 u);
      cbn [orb negb]; try reflexivity.
    apply orb_true_r.
Qed.

Lemma existsb_weaken {A} (p q : A -> bool) (l : list A) :
  (forall x, p x = true -> q x = true) ->
  existsb p l = true -> existsb q l = true.
Proof.
  intros Hpq H. apply existsb_exists in H as (x & Hin & Hp).
  apply existsb_exists. exists x. auto.
Qed.

(** X20.  [detectLanguage] answers [en] exactly for the texts without an
    underscore and without a unit of the Arabic block U+0600..U+06FF
    (letters, digits, spaces, punctuation and every other script pass
    the English pattern), and it never answers [ar]: the pattern of [fa],
    tried first, covers it. *)
Theorem detectLanguage_english_iff (text : list Z) :
  (Ai.detectLanguage text = Ai.en
   <-> forall u, In u text -> u <> 95 /\ ~ (1536 <= u <= 1791))
  /\ Ai.detectLanguage text <> Ai.ar.
Proof.
  unfold Ai.detectLanguage.
  destruct (existsb (Ai.in_range 1536 1791) text) eqn:Hfa.
  - split; [|discriminate]. split; [discriminate|].
    intros Hall. exfalso.
    apply existsb_exists in Hfa as (u & Hin & Hu).
    apply (proj2 (Hall u Hin)). unfold Ai.in_range in Hu. lia.
  - assert (Har : existsb (Ai.in_range 1569 1610) text = false).
    { destruct (existsb (Ai.in_range 1569 1610) text) eqn:Har; [|reflexivity].
      rewrite <- Hfa. symmetry. revert Har. apply existsb_weaken.
      intros u. unfold Ai.in_range. lia. }
    rewrite Har.
    assert (Hblock : forall u, In u text -> ~ (1536 <= u <= 1791)).
    { intros u Hin Hu.
      assert (existsb (Ai.in_range 1536 1791) text = true); [|congruence].
      apply existsb_exists. exists u. split; [exact Hin|]. unfold Ai.in_range. lia. }
    destruct (forallb Ai.en_class text) eqn:Hen.
    + split; [|discriminate]. split; [|reflexivity].
      intros _ u Hin. split; [|now apply Hblock].
      rewrite forallb_forall in Hen. specialize (Hen u Hin).
      rewrite en_class_is_not_underscore in Hen. lia.
    + assert (Hnot : ~ forall u, In u text -> u <> 95 /\ ~ (1536 <= u <= 1791)).
      { intros Hall.
        assert (forallb Ai.en_class text = true); [|congruence].
        apply forallb_forall. intros u Hin. rewrite en_class_is_not_underscore.
        destruct (Hall u Hin) as [Hu _]. apply Z.eqb_neq in Hu. now rewrite Hu. }
      split.
      * split; [|intros Hall; now contradiction Hnot].
        destruct (existsb (Ai.in_range 1024 1279) text); [discriminate|].
        destruct (existsb (Ai.in_range 19968 40959) text); [discriminate|].
        destruct (existsb (Ai.in_range 12352 12543) text); [discriminate|].
        destruct (existsb (Ai.in_range 44032 55215) text); discriminate.
      * destruct (existsb (Ai.in_range 1024 1279) text); [discriminate|].
        destruct (existsb (Ai.in_range 19968 40959) text); [discriminate|].
        destruct (existsb (Ai.in_range 12352 12543) text); [discriminate|].
        destruct (existsb (Ai.in_range 44032 55215) text); discriminate.
Qed.

Lemma tags_length : List.length Ai.REQUIRED_TAGS = 84%nat.
Proof. reflexivity. Qed.

Lemma tagged_length (text : list Z) :
  List.length (Ai.tagged text) = (List.length text + 85)%nat.
Proof.
  unfold Ai.tagged. rewrite !length_app, tags_length. simpl. lia.
Qed.

Lemma truncated_length (text : list Z) :
  (195 < List.length text)%nat -> List.length (Ai.truncated text) = 283%nat.
Proof.
  intros Hlong. unfold Ai.truncated.
  change Ai.maxMainTextLength with 195%nat.
  rewrite tagged_length, length_app, length_firstn.
  cbn [List.length]. lia.
Qed.

(** X21.  When the provider answers in English, the generated tweet is the
    trimmed answer followed by the tags if that has at most 280 units
    (an answer of at most 195); a longer answer is cut to 195 units and
    three dots, and the tweet then has 283 units, three more than the
    limit the cut was made for. *)
Theorem generateTweet_cut_leaves_283_units content aiServiceName alternativeText :
  String.eqb aiServiceName "Fallback" = false ->
  Ai.trim content <> [] ->
  Ai.detectLanguage (Ai.trim content) = Ai.en ->
  let tweet := Ai.trim content in
  let result := Ai.generateTweet (Some (Ai.Content content)) aiServiceName alternativeText in
  if (List.length tweet <=? 195)%nat
  then result = (tweet ++ [32] ++ Ai.REQUIRED_TAGS)%list
       /\ (List.length result <= 280)%nat
  else result = (firstn 195 tweet ++ [46; 46; 46] ++ [32] ++ Ai.REQUIRED_TAGS)%list
       /\ List.length result = 283%nat.
Proof.
  intros Hname. unfold Ai.generateTweet. rewrite Hname.
  destruct (Ai.trim content) as [|u rest]; [congruence|].
  intros _ Hlang. rewrite Hlang. cbv zeta.
  set (tweet := u :: rest). rewrite tagged_length.
  destruct (List.length tweet <=? 195)%nat eqn:Hlen.
  - apply Nat.leb_le in Hlen.
    replace (280 <? List.length tweet + 85)%nat with false
      by (symmetry; apply Nat.ltb_ge; lia).
    split; [reflexivity|]. rewrite tagged_length. lia.
  - apply Nat.leb_gt in Hlen.
    replace (280 <? List.length tweet + 85)%nat with true
      by (symmetry; apply Nat.ltb_lt; lia).
    split; [|now apply truncated_length].
    unfold Ai.truncated, Ai.tagged. change Ai.maxMainTextLength with 195%nat.
    now rewrite <- app_assoc.
Qed.

(** An instance: an answer of 200 letters x between two spaces. *)
Lemma generateTweet_cut_leaves_283_units_witness :
  let content := (32 :: repeat 120 200 ++ [32])%list in
  let result := Ai.generateTweet (Some (Ai.Content content)) "OpenAI" [] in
  result = (repeat 120 195 ++ [46; 46; 46] ++ [32] ++ Ai.REQUIRED_TAGS)%list
  /\ List.length result = 283%nat.
Proof.
  intros content.
  apply (generateTweet_cut_leaves_283_units content "OpenAI" []).
  - reflexivity.
  - discriminate.
  - reflexivity.
Defined.

(** X22.  Without a provider, or with the service named Fallback, the tweet is
    the alternative text followed by the tags, uncut whatever its
    length; and when the file of fallback texts is absent, unparsable or
    empty, that tweet is one of the built-in texts with the tags and has
    at most 280 units, whatever the random draw. *)
Theorem generateTweet_without_provider aiClient aiServiceName file pick :
  aiClient = None \/ aiServiceName = "Fallback" ->
  let alternativeText := Ai.getAlternativeAIText file pick in
  Ai.generateTweet aiClient aiServiceName alternativeText
  = (alternativeText ++ [32] ++ Ai.REQUIRED_TAGS)%list
  /\ (match file with Ai.Parsed (_ :: _) => True | _ =>
        (List.length (Ai.generateTweet aiClient aiServiceName alternativeText) <= 280)%nat
      end).
Proof.
  intros Hno alternativeText.
  assert (Hresult : Ai.generateTweet aiClient aiServiceName alternativeText
                    = Ai.tagged alternativeText).
  { unfold Ai.generateTweet. destruct aiClient as [completion|]; [|reflexivity].
    destruct Hno as [Hno | ->]; [discriminate | reflexivity]. }
  split; [exact Hresult|].
  assert (Hbuiltin : forall k,
             (List.length
                (match nth_error Ai.englishResponses k with
                 | Some selectedText => selectedText
                 | None =>
                     Ai.units_of "GiveRep airdrop on Sui network is now live! Join the community and earn rewards by participating."
                 end) <= 195)%nat).
  { intros k. do 10 (destruct k as [|k]; [vm_compute; lia|]).
    replace (nth_error Ai.englishResponses (S (S (S (S (S (S (S (S (S (S k)))))))))))
      with (@None (list Z)) by (symmetry; apply nth_error_None; simpl; lia).
    vm_compute. lia. }
  assert (Hcaught : (List.length (Ai.units_of "GiveRep airdrop on Sui network is now live! Join the community and earn rewards by participating.") <= 195)%nat)
    by (vm_compute; lia).
  rewrite Hresult, tagged_length. subst alternativeText.
  destruct file as [| |[|t l]]; [| |  |exact I]; unfold Ai.getAlternativeAIText.
  - specialize (Hbuiltin (pick (List.length Ai.englishResponses))). lia.
  - lia.
  - specialize (Hbuiltin (pick (List.length Ai.englishResponses))). lia.
Qed.

(** An instance: no client, no file, the draw 3. *)
Lemma generateTweet_without_provider_witness :
  let alternativeText := Ai.getAlternativeAIText Ai.NoFile (fun _ => 3%nat) in
  Ai.generateTweet None "Fallback" alternativeText
  = (alternativeText ++ [32] ++ Ai.REQUIRED_TAGS)%list
  /\ (List.length (Ai.generateTweet None "Fallback" alternativeText) <= 280)%nat.
Proof.
  apply (generateTweet_without_provider None "Fallback" Ai.NoFile (fun _ => 3%nat)).
  left. reflexivity.
Defined.
